(** * social-downloader: the cooldown gate, the media relay, the statistics
      and the platform command handlers of [main.py]

    The bot's handlers are asynchronous Python functions that talk to three
    outside parties: the clock, the HTTP client ([requests.get]) and the chat
    transport (reply / edit / delete).  They are embedded here as functions in
    a small monad [M]: a computation reads the environment (which answers every
    outside call, given the events seen so far), threads the mutable state
    ([stats] and [context.user_data]), emits the events it performs, and ends
    either with a value or with a raised exception.  The progress task runs
    beside its handler; the handler's events record where the task is created
    and where it is cancelled, and the task itself is a step machine over the
    wake-ups of its coroutine. *)

From Stdlib Require Import ZArith Floats.
From stdpp Require Import gmap strings list pretty.

Local Open Scope Z_scope.
Local Set Warnings "-register-all,-inexact-float,-clear-no-such-hyp".

(** ** Python numbers *)

Module Py.

(** The conversion of an int operand in mixed arithmetic: the binary64 value
    nearest to [z], ties to even.  It is applied to the configured cooldown
    only, which is taken to lie within the float range (beyond it, for
    integers of more than 300 digits, CPython raises OverflowError where this
    conversion saturates). *)
Definition int_to_float (z : Z) : float :=
  SF2Prim (binary_normalize prec emax z 0 false).

(** The signed mantissa of a finite float, whose value is [signed s m * 2^e]. *)
Definition signed (s : bool) (m : positive) : Z :=
  if s then Z.neg m else Z.pos m.

(** [f < z] for a float [f] and an int [z].  CPython compares the two
    exactly, without converting [z] to a float first. *)
Definition float_lt_int (f : float) (z : Z) : bool :=
  match Prim2SF f with
  | S754_nan => false
  | S754_infinity s => s
  | S754_zero _ => 0 <? z
  | S754_finite s m e =>
      if 0 <=? e then signed s m * 2 ^ e <? z
      else signed s m <? z * 2 ^ (- e)
  end.

(** Nearest integer to [a / d] ([d > 0]), ties to the even neighbour. *)
Definition div_half_even (a d : Z) : Z :=
  let q := a / d in
  match 2 * (a mod d) ?= d with
  | Lt => q
  | Gt => q + 1
  | Eq => if Z.even q then q else q + 1
  end.

Definition SF_of_int (z : Z) : spec_float :=
  match z with
  | Z0 => S754_zero false
  | Z.pos p => S754_finite false p 0
  | Z.neg p => S754_finite true p 0
  end.

(** [round(x, 1)] on a float.  CPython prints the exact binary value of [x]
    with one digit after the point (round half to even) and reads the
    decimal back as the nearest float; NaN and the infinities are returned
    as they are, and a result of zero keeps the sign of [x]. *)
Definition round1 (x : float) : float :=
  match Prim2SF x with
  | S754_finite s m e =>
      let tenths :=
        if 0 <=? e then 10 * Z.pos m * 2 ^ e
        else div_half_even (10 * Z.pos m) (2 ^ (- e)) in
      match tenths with
      | Z.pos p =>
          SF2Prim (SFdiv prec emax (S754_finite s p 0) (S754_finite false 10 0))
      | _ => SF2Prim (S754_zero s)
      end
  | _ => x
  end.

End Py.

(** ** Exceptions and results *)

(** A Python exception: its class name and [str(e)].  The exceptions of the
    model are instances of [Exception], the ones [except Exception] catches;
    the cancellation of a handler's own task and the exit of the interpreter
    are not modelled. *)
Record exn := Exn { exn_type : string; exn_str : string }.

Inductive result (A : Type) : Type :=
| Return (a : A)
| Raise (e : exn).
Arguments Return {A} a.
Arguments Raise {A} e.

Global Instance result_ret : MRet result := λ A a, Return a.
Global Instance result_bind : MBind result := λ A B k r,
  match r with
  | Return a => k a
  | Raise e => Raise e
  end.

(** True division of two ints, [a / b]: ZeroDivisionError for [b = 0],
    OverflowError when the quotient rounds beyond the largest float (from
    [2^1024 - 2^970] on, half an ulp below [2^1024]), and otherwise the float
    nearest to the exact quotient. *)
Definition overflow_threshold : Z := 2 ^ 1024 - 2 ^ 970.

Definition nearest_quotient (a b : Z) : float :=
  SF2Prim (SFdiv prec emax (Py.SF_of_int a) (Py.SF_of_int b)).

Definition py_truediv (a b : Z) : result float :=
  if b =? 0 then Raise (Exn "ZeroDivisionError" "division by zero")
  else if overflow_threshold * Z.abs b <=? Z.abs a
  then Raise (Exn "OverflowError" "integer division result too large for a float")
  else Return (nearest_quotient a b).

(** ** Values decoded from JSON, with the Python operations the handlers
    apply to them *)

Inductive json : Type :=
| JNull
| JBool (b : bool)
| JInt (z : Z)
| JFloat (f : float)
| JStr (s : string)
| JList (l : list json)
| JDict (d : list (string * json)).

Definition truthy (v : json) : bool :=
  match v with
  | JNull => false
  | JBool b => b
  | JInt z => negb (z =? 0)
  | JFloat f => negb (PrimFloat.eqb f 0)
  | JStr s => negb (String.eqb s "")
  | JList l => match l with [] => false | _ => true end
  | JDict d => match d with [] => false | _ => true end
  end.

Fixpoint dict_lookup (d : list (string * json)) (k : string) : option json :=
  match d with
  | [] => None
  | (k', v) :: d' => if String.eqb k' k then Some v else dict_lookup d' k
  end.

Definition type_name (v : json) : string :=
  match v with
  | JNull => "NoneType"
  | JBool _ => "bool"
  | JInt _ => "int"
  | JFloat _ => "float"
  | JStr _ => "str"
  | JList _ => "list"
  | JDict _ => "dict"
  end.

(** [v.get(k, dflt)]: only a dict has [get]. *)
Definition py_get (v : json) (k : string) (dflt : json) : result json :=
  match v with
  | JDict d => Return (default dflt (dict_lookup d k))
  | _ => Raise (Exn "AttributeError" (type_name v +:+ " object has no attribute get"))
  end.

(** [v[k]] for a string key. *)
Definition py_getitem (v : json) (k : string) : result json :=
  match v with
  | JDict d =>
      match dict_lookup d k with
      | Some x => Return x
      | None => Raise (Exn "KeyError" k)
      end
  | _ => Raise (Exn "TypeError" (type_name v +:+ " indices must be integers"))
  end.

(** The characters of a string, one item per byte (exact for ASCII text). *)
Fixpoint chars (s : string) : list json :=
  match s with
  | EmptyString => []
  | String c s' => JStr (String c EmptyString) :: chars s'
  end.

(** [v[i]] for an index [i >= 0]. *)
Definition py_index (v : json) (i : nat) : result json :=
  match v with
  | JList l =>
      match l !! i with
      | Some x => Return x
      | None => Raise (Exn "IndexError" "list index out of range")
      end
  | JStr s =>
      match chars s !! i with
      | Some x => Return x
      | None => Raise (Exn "IndexError" "string index out of range")
      end
  | JDict _ => Raise (Exn "KeyError" (pretty i))
  | _ => Raise (Exn "TypeError" (type_name v +:+ " object is not subscriptable"))
  end.

(** The items a [for] loop over [v] visits. *)
Definition py_iter (v : json) : result (list json) :=
  match v with
  | JList l => Return l
  | JStr s => Return (chars s)
  | JDict d => Return (map (λ kv, JStr (fst kv)) d)
  | _ => Raise (Exn "TypeError" (type_name v +:+ " object is not iterable"))
  end.

Fixpoint is_substring (needle s : string) : bool :=
  String.prefix needle s ||
  match s with
  | EmptyString => false
  | String _ s' => is_substring needle s'
  end.

Definition is_str (needle : string) (v : json) : bool :=
  match v with
  | JStr s => String.eqb s needle
  | _ => false
  end.

(** [needle in v] for a string [needle]. *)
Definition py_str_in (needle : string) (v : json) : result bool :=
  match v with
  | JStr s => Return (is_substring needle s)
  | JList l => Return (existsb (is_str needle) l)
  | JDict d => Return (existsb (λ kv, String.eqb (fst kv) needle) d)
  | _ => Raise (Exn "TypeError" ("argument of type " +:+ type_name v +:+ " is not iterable"))
  end.

(** ** The outside world *)

(** An f-string: the template and the values substituted into it.  The
    rendering itself is not modelled. *)
Record text := Fmt { template : string; values : list json }.

Definition bytes : Type := list Byte.byte.

(** [len(data)]. *)
Definition len (data : bytes) : Z := Z.of_nat (length data).

(** Calls on the chat transport: [update.message.reply_*] and the edit and
    delete of the status message [msg]. *)
Inductive chat_request : Type :=
| ReplyText (t : text)
| ReplyHtml (t : text)
| ReplyPhotoLink (link : json)
| ReplyVideo (data : bytes) (caption : text) (filename : string)
| ReplyAudio (data : bytes) (caption : text) (filename : string)
| ReplyPhoto (data : bytes) (caption : text) (filename : string)
| EditText (t : text)
| Delete.

(** [requests.get(url, params=..., timeout=..., stream=...)]. *)
Record http_request := HttpGet {
  rq_url : json;
  rq_params : gmap string string;
  rq_timeout : Z;
  rq_stream : bool
}.

(** What a [requests] response offers to the code: the status, the body
    ([r.content], whose download may still fail on a streamed response) and
    the decoded body ([response.json()], which raises on a malformed one). *)
Record response := Response {
  status_code : Z;
  content : result bytes;
  json_body : result json
}.

Inductive event : Type :=
| EvHttp (rq : http_request)
| EvChat (rq : chat_request)
| EvLog (level : string) (prefix : string) (e : exn)
| EvTaskCreate
| EvTaskCancel.

(** The environment answers every outside call, given the events so far.
    [chat] returns the exception the call raises, if any. *)
Record env := Env {
  clock : list event → float;
  datetime_now : list event → Z;
  http : list event → http_request → result response;
  chat : list event → chat_request → option exn
}.

(** ** Mutable state: the module-level [stats] dict and the invoking user's
    [context.user_data] *)

Record Stats := MkStats {
  total_requests : Z;
  successful_requests : Z;
  failed_requests : Z;
  users : gset Z;
  commands_used : gmap string Z;
  start_time : Z
}.

Definition initial_stats (start : Z) : Stats :=
  MkStats 0 0 0 ∅ ∅ start.

Record state := State {
  stats : Stats;
  user_data : gmap string float
}.

(** ** The monad of handlers *)

Definition M (A : Type) : Type :=
  env → list event → state → result A * state * list event.

Global Instance M_ret : MRet M := λ A a _ _ s, (Return a, s, []).

Global Instance M_bind : MBind M := λ A B k m E h s,
  match m E h s with
  | (Return a, s1, ev1) =>
      let '(r, s2, ev2) := k a E (h ++ ev1) s1 in (r, s2, ev1 ++ ev2)
  | (Raise e, s1, ev1) => (Raise e, s1, ev1)
  end.

Definition lift {A} (r : result A) : M A := λ _ _ s, (r, s, []).

Definition emit (e : event) : M unit := λ _ _ s, (Return tt, s, [e]).

(** [try: m  except Exception as e: handler e]. *)
Definition try_except {A} (m : M A) (handler : exn → M A) : M A := λ E h s,
  match m E h s with
  | (Raise e, s1, ev1) =>
      let '(r, s2, ev2) := handler e E (h ++ ev1) s1 in (r, s2, ev1 ++ ev2)
  | done => done
  end.

(** [try: m  finally: cleanup]: the cleanup runs however [m] ends, and the
    outcome of [m] stands unless the cleanup itself raises. *)
Definition try_finally {A} (m : M A) (cleanup : M unit) : M A := λ E h s,
  let '(r, s1, ev1) := m E h s in
  match cleanup E (h ++ ev1) s1 with
  | (Return _, s2, ev2) => (r, s2, ev1 ++ ev2)
  | (Raise e, s2, ev2) => (Raise e, s2, ev1 ++ ev2)
  end.

Definition time_time : M float := λ E h s, (Return (clock E h), s, []).

Definition now_datetime : M Z := λ E h s, (Return (datetime_now E h), s, []).

Definition requests_get (rq : http_request) : M response := λ E h s,
  (http E h rq, s, [EvHttp rq]).

Definition chat_call (rq : chat_request) : M unit := λ E h s,
  (match chat E h rq with None => Return tt | Some e => Raise e end, s, [EvChat rq]).

Definition get_stats : M Stats := λ _ _ s, (Return (stats s), s, []).

Definition set_stats (st : Stats) : M unit := λ _ _ s,
  (Return tt, State st (user_data s), []).

Definition get_user_data : M (gmap string float) := λ _ _ s,
  (Return (user_data s), s, []).

Definition set_user_data (ud : gmap string float) : M unit := λ _ _ s,
  (Return tt, State (stats s) ud, []).

Definition logger (level prefix : string) (e : exn) : M unit :=
  emit (EvLog level prefix e).

(** [response.raise_for_status()] of [requests]: an HTTPError for a 4xx or a
    5xx status, nothing for any other status. *)
Definition http_error_msg (status : Z) : option string :=
  if (400 <=? status) && (status <? 500)
  then Some (pretty status +:+ " Client Error")
  else if (500 <=? status) && (status <? 600)
  then Some (pretty status +:+ " Server Error")
  else None.

Definition raise_for_status (r : response) : result unit :=
  match http_error_msg (status_code r) with
  | Some msg => Raise (Exn "HTTPError" msg)
  | None => Return tt
  end.

(** ** The progress indicator

    [loading_animation] never returns by itself; it is a coroutine that is
    suspended at one of its two [await]s and is woken either normally or with
    an exception thrown into it (a failed edit, or the CancelledError that
    [task.cancel()] delivers).  One step of the machine is one wake-up. *)

Definition spinner : list string :=
  ["⠋"; "⠙"; "⠹"; "⠸"; "⠼"; "⠴"; "⠦"; "⠧"; "⠇"; "⠏"].

Inductive wake : Type :=
| Resumed
| Thrown (e : exn).

Inductive coroutine : Type :=
| AwaitEdit (i : nat)
| AwaitSleep (i : nat)
| Finished
| Failed (e : exn).

(** The edit the coroutine is waiting on, when it waits on one. *)
Definition pending_edit (c : coroutine) : option chat_request :=
  match c with
  | AwaitEdit i =>
      Some (EditText (Fmt "{spinner[i % 10]} Processing..."
                          [JStr (default "" (spinner !! (i `mod` 10)%nat))]))
  | _ => None
  end.

Definition loading_animation_step (c : coroutine) (w : wake) : coroutine :=
  match c, w with
  | AwaitEdit i, Resumed => AwaitSleep (S i)
  | AwaitSleep i, Resumed => AwaitEdit i
  | AwaitEdit _, Thrown _ => Finished
  | AwaitSleep _, Thrown _ => Finished
  | Finished, _ => Finished
  | Failed e, _ => Failed e
  end.

Definition loading_animation (schedule : list wake) : coroutine :=
  fold_left loading_animation_step schedule (AwaitEdit 0).

(** ** The calls of [broadcast]

    [broadcast] also writes to chats other than the caller's and pauses
    between two messages.  Its transport answers, given the calls so far, a
    call on the caller's chat, a [context.bot.send_message] or an
    [asyncio.sleep] with the exception it raises, if any. *)

Inductive bot_request : Type :=
| ToCaller (rq : chat_request)
| SendMessage (chat_id : Z) (t : text)
| Sleep.

Definition transport : Type := list bot_request → bot_request → option exn.

(** ** Scenarios

    Concrete worlds for the examples at the end: a configuration, a clock
    that reads 1000.25, and answers of the extraction API, of the media
    servers and of the chat transport. *)

Module Scenario.

Definition base : string := "https://api.example".
Definition cooldown : Z := 7.
Definition admins : list Z := [1].
Definition link : string := "https://social.example/p/1".

Definition clip : json := JStr "https://cdn.example/a.mp4".
Definition picture : json := JStr "https://cdn.example/b.jpg".

Definition payload (urls : list json) : json :=
  JDict [("success", JBool true); ("urls", JList urls)].

Definition answer (status : Z) (body : json) : result response :=
  Return (Response status (Return []) (Return body)).

Definition media (data : bytes) : result response :=
  Return (Response 200 (Return data) (Raise (Exn "JSONDecodeError" "Expecting value"))).

Definition world (http : http_request → result response)
    (chat : chat_request → option exn) : env :=
  Env (λ _, 1000.25%float) (λ _, 0) (λ _, http) (λ _, chat).

(** A user without a recorded command, and one who sent a command at 999. *)
Definition start : state := State (initial_stats 0) ∅.
Definition recent : state := State (initial_stats 0) {["last_cmd" := 999%float]}.

(** The API finds a clip and a picture; the clip downloads, the picture's
    server resets the connection; the chat transport accepts everything. *)
Definition E_delivers : env :=
  world (λ rq, if rq_stream rq
               then (if is_str "https://cdn.example/b.jpg" (rq_url rq)
                     then Raise (Exn "ConnectionError" "Connection reset")
                     else media [Byte.x50])
               else answer 200 (payload [clip; picture]))
        (λ _, None).

(** The same API answer with one clip; the chat transport refuses to delete
    the status message. *)
Definition E_delete_fails : env :=
  world (λ rq, if rq_stream rq then media [Byte.x50] else answer 200 (payload [clip]))
        (λ rq, match rq with
               | Delete => Some (Exn "BadRequest" "Message to delete not found")
               | _ => None
               end).

(** The same again; the chat transport refuses the per-item status edit. *)
Definition E_edit_fails : env :=
  world (λ rq, if rq_stream rq then media [Byte.x50] else answer 200 (payload [clip]))
        (λ rq, match rq with
               | EditText t =>
                   if String.eqb (template t) "Downloading {i}/{n}..."
                   then Some (Exn "RetryAfter" "Flood control exceeded")
                   else None
               | _ => None
               end).

(** The API answers 300 Multiple Choices with a body that decodes. *)
Definition E_multiple_choices : env :=
  world (λ _, answer 300 (payload [clip])) (λ _, None).

(** The world of [E_delivers] a little later: the clock reads 1003. *)
Definition E_later : env :=
  Env (λ _, 1003%float) (λ _, 0) (http E_delivers) (chat E_delivers).

(** The API cannot be reached. *)
Definition unreachable : exn := Exn "ConnectionError" "Max retries exceeded".
Definition E_unreachable : env :=
  world (λ _, Raise unreachable) (λ _, None).

(** The API reports that it found nothing. *)
Definition E_not_found : env :=
  world (λ _, answer 200 (JDict [("success", JBool false); ("error", JStr "Not found")]))
        (λ _, None).

(** A picture of 10 MiB and one byte. *)
Definition huge_photo : bytes := replicate (Z.to_nat 10485761) Byte.x00.
Definition E_huge : env :=
  world (λ _, media huge_photo) (λ _, None).



(** Three known users; user 8 has blocked the bot. *)
Definition three_users : Stats :=
  MkStats 3 2 1 {[7; 8; 9]} {["tiktok" := 3]} 0.

Definition blocked_by_8 : transport :=
  λ _ rq, match rq with
          | SendMessage 8 _ => Some (Exn "Forbidden" "bot was blocked by the user")
          | _ => None
          end.

End Scenario.

(** ** The bot *)

Section Bot.

(** Configuration read from the process environment at start-up. *)
Variable API_BASE_URL : string.
Variable COMMAND_COOLDOWN : Z.
Variable ADMIN_IDS : list Z.

Definition is_admin (user_id : Z) : bool :=
  bool_decide (user_id ∈ ADMIN_IDS).

Definition call_api (endpoint url : string) (kwargs : gmap string string) : M json :=
  try_except
    (let full_url := API_BASE_URL +:+ "/" +:+ endpoint in
     let params := kwargs ∪ {["url" := url]} in
     response ← requests_get (HttpGet (JStr full_url) params 30 false);
     lift (raise_for_status response);;
     lift (json_body response))
    (λ e,
       logger "error" ("API Error (" +:+ endpoint +:+ ")") e;;
       mret (JDict [("success", JBool false); ("error", JStr (exn_str e))])).

(** Returns [(on_cooldown, wait)]. *)
Definition check_cooldown (user_id : Z) : M (bool * float) :=
  if is_admin user_id then mret (false, 0%float)
  else
    now ← time_time;
    ud ← get_user_data;
    let last := default 0%float (ud !! "last_cmd") in
    if Py.float_lt_int (now - last)%float COMMAND_COOLDOWN
    then mret (true, Py.round1 (Py.int_to_float COMMAND_COOLDOWN - (now - last))%float)
    else set_user_data (<["last_cmd" := now]> ud);; mret (false, 0%float).

(** The update of [stats] by [track_command], as a function on the record. *)
Definition track_command (user_id : Z) (cmd : string) (success : bool) (st : Stats) : Stats :=
  {| total_requests := total_requests st + 1;
     successful_requests :=
       if success then successful_requests st + 1 else successful_requests st;
     failed_requests :=
       if success then failed_requests st else failed_requests st + 1;
     users := {[user_id]} ∪ users st;
     commands_used :=
       <[cmd := default 0 (commands_used st !! cmd) + 1]> (commands_used st);
     start_time := start_time st |}.

Definition track (user_id : Z) (cmd : string) (success : bool) : M unit :=
  st ← get_stats; set_stats (track_command user_id cmd success st).

(** The two size checks of [send_media_from_url]. *)
Definition size_policy (media_type : string) (data : bytes) : result unit :=
  if String.eqb media_type "video" && (50 * 1024 * 1024 <? len data)
  then Raise (Exn "ValueError" "Video >50MB")
  else if String.eqb media_type "photo" && (10 * 1024 * 1024 <? len data)
  then Raise (Exn "ValueError" "Photo >10MB")
  else Return tt.

Definition reply_media (media_type : string) (data : bytes) (caption : text)
    (filename : string) : M unit :=
  if String.eqb media_type "video" then chat_call (ReplyVideo data caption filename)
  else if String.eqb media_type "audio" then chat_call (ReplyAudio data caption filename)
  else if String.eqb media_type "photo" then chat_call (ReplyPhoto data caption filename)
  else mret tt.

(** [True] is an inline delivery; [False] leaves the caller with the link. *)
Definition send_media_from_url (file_url : json) (media_type : string)
    (caption : text) (filename_prefix : string) : M bool :=
  try_except
    (r ← requests_get (HttpGet file_url ∅ 60 true);
     lift (raise_for_status r);;
     data ← lift (content r);
     let ext :=
       if String.eqb media_type "photo" then ".jpg"
       else if String.eqb media_type "video" then ".mp4" else ".mp3" in
     let filename := filename_prefix +:+ ext in
     lift (size_policy media_type data);;
     reply_media media_type data caption filename;;
     mret true)
    (λ e, logger "warning" "Send failed" e;; mret false).

(** The success rate that [about] reports. *)
Definition success_rate (st : Stats) : result float :=
  q ← py_truediv (successful_requests st) (Z.max (total_requests st) 1);
  mret (q * 100)%float.

(** [datetime] values are counted in microseconds. *)
Definition about : M unit :=
  now ← now_datetime;
  st ← get_stats;
  let uptime := now - start_time st in
  let days := uptime / (86400 * 1000000) in
  let seconds := (uptime `mod` (86400 * 1000000)) / 1000000 in
  let hours := seconds / 3600 in
  let minutes := (seconds `mod` 3600) / 60 in
  rate ← lift (success_rate st);
  chat_call (ReplyHtml (Fmt "About Bot: {days}d {hours}h {minutes}m, users, total, {success_rate:.1f}%"
    [JInt days; JInt hours; JInt minutes; JInt (Z.of_nat (size (users st)));
     JInt (total_requests st); JFloat rate])).

(** *** /instagram *)

(** The [for] loop of [handle_instagram]; [i] counts from 1 and [n] is
    [len(data['urls'])]. *)
Fixpoint relay_loop (n i : nat) (items : list json) (uploaded : nat)
    (fallback : list json) : M (nat * list json) :=
  match items with
  | [] => mret (uploaded, fallback)
  | url :: rest =>
      chat_call (EditText (Fmt "Downloading {i}/{n}..."
                               [JInt (Z.of_nat i); JInt (Z.of_nat n)]));;
      is_video ← lift (py_str_in "mp4" url);
      sent ← send_media_from_url url (if is_video : bool then "video" else "photo")
                (Fmt "Instagram Media {i}" [JInt (Z.of_nat i)]) ("ig_" +:+ pretty i);
      if sent : bool then relay_loop n (S i) rest (S uploaded) fallback
      else relay_loop n (S i) rest uploaded (fallback ++ [url])
  end.

(** The body of the [try] statement. *)
Definition instagram_try (user_id : Z) (link : string) : M unit :=
  data ← call_api "insta" link ∅;
  ok ← lift (py_get data "success" JNull);
  cond ← (if truthy ok then lift (py_get data "urls" JNull) else mret ok);
  if truthy cond then
    urls ← lift (py_getitem data "urls");
    items ← lift (py_iter urls);
    '(uploaded, fallback) ← relay_loop (length items) 1 items 0 [];
    chat_call Delete;;
    (match fallback with
     | [] => mret tt
     | _ :: _ =>
         chat_call (ReplyHtml (Fmt "✅ {uploaded} sent. Large files: {links}"
                                   [JInt (Z.of_nat uploaded); JList fallback]))
     end);;
    track user_id "instagram" true
  else
    err ← lift (py_get data "error" (JStr "Unknown"));
    chat_call (EditText (Fmt "Error: {error}" [err]));;
    track user_id "instagram" false.

Definition instagram_except (e : exn) : M unit :=
  chat_call (EditText (Fmt "Unexpected error." []));;
  logger "error" "Instagram error" e.

Definition handle_instagram (user_id : Z) (args : list string) : M unit :=
  '(on_cd, wait) ← check_cooldown user_id;
  if on_cd : bool then
    chat_call (ReplyText (Fmt "⏳ Wait {wait}s before next command." [JFloat wait]))
  else
    match args with
    | [] => chat_call (ReplyText (Fmt "Usage: <b>/instagram <link></b>" []))
    | link :: _ =>
        chat_call (ReplyText (Fmt "⏳ Processing..." []));;
        emit EvTaskCreate;;
        try_finally
          (try_except (instagram_try user_id link) instagram_except)
          (emit EvTaskCancel)
    end.

(** *** /tiktok *)

Definition tiktok_try (user_id : Z) (link : string) : M unit :=
  data ← call_api "tiktok" link ∅;
  ok ← lift (py_get data "success" JNull);
  cond ← (if truthy ok then lift (py_get data "data" JNull) else mret ok);
  if truthy cond then
    records ← lift (py_getitem data "data");
    video ← lift (py_index records 0);
    links ← lift (py_getitem video "downloadLinks");
    entry ← lift (py_index links 0);
    dl ← lift (py_getitem entry "link");
    title ← lift (py_get video "title" (JStr "TikTok Video"));
    thumb ← lift (py_get video "thumbnail" JNull);
    (if truthy thumb then
       t ← lift (py_getitem video "thumbnail"); chat_call (ReplyPhotoLink t)
     else mret tt);;
    sent ← send_media_from_url dl "video" (Fmt "<b>{title}</b>" [title]) "tiktok";
    if sent : bool then
      chat_call Delete;;
      track user_id "tiktok" true
    else
      chat_call (EditText (Fmt "Too large. <a href='{dl}'>Download here</a>" [dl]));;
      track user_id "tiktok" false
  else
    err ← lift (py_get data "error" (JStr "Not found"));
    chat_call (EditText (Fmt "Error: {error}" [err])).

Definition tiktok_except (e : exn) : M unit :=
  chat_call (EditText (Fmt "Error occurred." []));;
  logger "error" "" e.

Definition handle_tiktok (user_id : Z) (args : list string) : M unit :=
  '(on_cd, wait) ← check_cooldown user_id;
  if on_cd : bool then
    chat_call (ReplyText (Fmt "⏳ Wait {wait}s." [JFloat wait]))
  else
    match args with
    | [] => chat_call (ReplyText (Fmt "Usage: <b>/tiktok <link></b>" []))
    | link :: _ =>
        chat_call (ReplyText (Fmt "⏳ Processing..." []));;
        emit EvTaskCreate;;
        try_finally
          (try_except (tiktok_try user_id link) tiktok_except)
          (emit EvTaskCancel)
    end.

(** *** /broadcast *)

Definition announcement (msg_text : string) : text :=
  Fmt "<b>Announcement</b>\n\n{msg_text}" [JStr msg_text].

(** The [for] loop of [broadcast].  Its [try] has a bare [except]: whatever
    the send or the pause raises counts as one failure, and the loop goes on;
    the pause comes after [sent += 1]. *)
Fixpoint broadcast_loop (T : transport) (msg_text : string) (uids : list Z)
    (h : list bot_request) (sent failed : nat) : nat * nat * list bot_request :=
  match uids with
  | [] => (sent, failed, [])
  | uid :: rest =>
      let send := SendMessage uid (announcement msg_text) in
      match T h send with
      | Some _ =>
          let '(sent', failed', ev) :=
            broadcast_loop T msg_text rest (h ++ [send]) sent (S failed) in
          (sent', failed', send :: ev)
      | None =>
          match T (h ++ [send]) Sleep with
          | Some _ =>
              let '(sent', failed', ev) :=
                broadcast_loop T msg_text rest (h ++ [send; Sleep]) (S sent) (S failed) in
              (sent', failed', send :: Sleep :: ev)
          | None =>
              let '(sent', failed', ev) :=
                broadcast_loop T msg_text rest (h ++ [send; Sleep]) (S sent) failed in
              (sent', failed', send :: Sleep :: ev)
          end
      end
  end.

Definition done_message (sent failed : nat) : bot_request :=
  ToCaller (EditText (Fmt "Done! Sent: {sent}, Failed: {failed}"
                          [JInt (Z.of_nat sent); JInt (Z.of_nat failed)])).

(** The known users are visited in the order in which the set enumerates
    them.  Handlers are modelled one at a time: the set does not change
    during the loop. *)
Definition broadcast (user_id : Z) (args : list string) (st : Stats)
    (T : transport) (h : list bot_request) : result unit * list bot_request :=
  let call rq := (match T h rq with None => Return tt | Some e => Raise e end, [rq]) in
  if negb (is_admin user_id) then call (ToCaller (ReplyText (Fmt "Admin only." [])))
  else
    match args with
    | [] => call (ToCaller (ReplyText (Fmt "Usage: /broadcast <message>" [])))
    | _ :: _ =>
        let msg_text := String.concat " " args in
        let status := ToCaller (ReplyText (Fmt "Sending..." [])) in
        match T h status with
        | Some e => (Raise e, [status])
        | None =>
            let '(sent, failed, ev) :=
              broadcast_loop T msg_text (elements (users st)) (h ++ [status]) 0 0 in
            (match T (h ++ status :: ev) (done_message sent failed) with
             | None => Return tt
             | Some e => Raise e
             end,
             status :: ev ++ [done_message sent failed])
        end
    end.

(** ** Vocabulary of the statements *)

(** The elapsed time the gate computes: [now - last], with [0] for a user
    without a recorded command. *)
Definition elapsed (E : env) (h : list event) (s : state) : float :=
  (clock E h - default 0 (user_data s !! "last_cmd"))%float.

(** Whether the gate blocks [user_id] at this moment. *)
Definition on_cooldown (user_id : Z) (E : env) (h : list event) (s : state) : bool :=
  negb (is_admin user_id) && Py.float_lt_int (elapsed E h s) COMMAND_COOLDOWN.

(** The request [call_api] sends. *)
Definition api_request (endpoint url : string) (kwargs : gmap string string) : http_request :=
  HttpGet (JStr (API_BASE_URL +:+ "/" +:+ endpoint)) (kwargs ∪ {["url" := url]}) 30 false.

(** The Failure shape of an extraction result. *)
Definition failure (e : exn) : json :=
  JDict [("success", JBool false); ("error", JStr (exn_str e))].

(** The ways the HTTP call behind [call_api] goes wrong, with the exception
    that stands for each: the transport fails, the status is one that
    [raise_for_status] rejects, or the body of an accepted response does not
    decode. *)
Inductive http_failure (E : env) (h : list event) (rq : http_request) : exn → Prop :=
| transport_error e :
    http E h rq = Raise e → http_failure E h rq e
| error_status r msg :
    http E h rq = Return r →
    400 ≤ status_code r < 600 →
    http_error_msg (status_code r) = Some msg →
    http_failure E h rq (Exn "HTTPError" msg)
| malformed_body r e :
    http E h rq = Return r →
    ¬ (400 ≤ status_code r < 600) →
    json_body r = Raise e →
    http_failure E h rq e.

(** The request [send_media_from_url] sends. *)
Definition media_request (file_url : json) : http_request :=
  HttpGet file_url ∅ 60 true.

(** The outcome of the fetch phase of [send_media_from_url]. *)
Definition fetched (E : env) (h : list event) (file_url : json) : result bytes :=
  r ← http E h (media_request file_url);
  _ ← raise_for_status r;
  content r.

(** Whether the chat transport accepts a call. *)
Definition accepted (E : env) (h : list event) (rq : chat_request) : bool :=
  match chat E h rq with
  | None => true
  | Some _ => false
  end.

(** A payload above the limit of its kind. *)
Definition oversize (media_type : string) (data : bytes) : Prop :=
  (media_type = "video" ∧ 50 * 1024 * 1024 < len data) ∨
  (media_type = "photo" ∧ 10 * 1024 * 1024 < len data).

(** The state the gate leaves behind when it lets [user_id] through. *)
Definition after_gate (user_id : Z) (E : env) (h : list event) (s : state) : state :=
  if is_admin user_id then s
  else State (stats s) (<["last_cmd" := clock E h]> (user_data s)).

(** The history at which the [try] statement of a handler starts. *)
Definition try_entry (h : list event) : list event :=
  h ++ [EvChat (ReplyText (Fmt "⏳ Processing..." [])); EvTaskCreate].

(** The value [call_api] hands back. *)
Definition extraction (endpoint link : string) (kwargs : gmap string string)
    (E : env) (h : list event) : json :=
  match (r ← http E h (api_request endpoint link kwargs);
         _ ← raise_for_status r;
         json_body r) with
  | Return v => v
  | Raise e => failure e
  end.

(** The test [data.get("success") and data.get(field)] of the handlers. *)
Definition succeeded (field : string) (data : json) : Prop :=
  ∃ ok v,
    py_get data "success" JNull = Return ok ∧ truthy ok = true ∧
    py_get data field JNull = Return v ∧ truthy v = true.

(** One [track_command] call, read on the counters. *)
Definition mutated_once (before after : Stats) : Prop :=
  total_requests after = total_requests before + 1 ∧
  ((successful_requests after = successful_requests before + 1 ∧
    failed_requests after = failed_requests before) ∨
   (successful_requests after = successful_requests before ∧
    failed_requests after = failed_requests before + 1)).

(** The URLs of the media fetches among some events, in order: one per
    invocation of [send_media_from_url], whose first act is the fetch. *)
Definition media_fetches (ev : list event) : list json :=
  omap (λ e, match e with
             | EvHttp rq => if rq_stream rq then Some (rq_url rq) else None
             | _ => None
             end) ev.

(** The items whose relay came back [False], and the number of the others. *)
Fixpoint undelivered (items : list json) (sent : list bool) : list json :=
  match items, sent with
  | url :: items', b :: sent' =>
      if b then undelivered items' sent' else url :: undelivered items' sent'
  | _, _ => []
  end.

Definition delivered (sent : list bool) : nat :=
  length (filter (λ b, b = true) sent).

Definition downloading (i n : nat) : chat_request :=
  EditText (Fmt "Downloading {i}/{n}..." [JInt (Z.of_nat i); JInt (Z.of_nat n)]).

(** The closing report of [handle_instagram], sent when a link was deferred. *)
Definition report (uploaded : nat) (fallback : list json) : chat_request :=
  ReplyHtml (Fmt "✅ {uploaded} sent. Large files: {links}"
                 [JInt (Z.of_nat uploaded); JList fallback]).

(** A complete pass over the items: for each one, in order, the status edit
    is accepted and the relay is invoked once, answering [b]. *)
Inductive relay_run (E : env) (s : state) (n : nat) :
    list event → nat → list json → list bool → list event → Prop :=
| relay_run_nil h i :
    relay_run E s n h i [] [] []
| relay_run_cons h i url rest is_video b ev1 sent ev2 :
    chat E h (downloading i n) = None →
    py_str_in "mp4" url = Return is_video →
    send_media_from_url url (if is_video : bool then "video" else "photo")
      (Fmt "Instagram Media {i}" [JInt (Z.of_nat i)]) ("ig_" +:+ pretty i)
      E (h ++ [EvChat (downloading i n)]) s = (Return b, s, ev1) →
    relay_run E s n (h ++ EvChat (downloading i n) :: ev1) (S i) rest sent ev2 →
    relay_run E s n h i (url :: rest) (b :: sent)
      (EvChat (downloading i n) :: ev1 ++ ev2).

(** A sequence of [track_command] calls. *)
Definition record_all (calls : list (Z * string * bool)) (st : Stats) : Stats :=
  fold_left (λ st c, track_command c.1.1 c.1.2 c.2 st) calls st.

Definition successes (calls : list (Z * string * bool)) : Z :=
  Z.of_nat (length (filter (λ c, c.2 = true) calls)).

Definition failures (calls : list (Z * string * bool)) : Z :=
  Z.of_nat (length (filter (λ c, c.2 = false) calls)).

(** The extension [send_media_from_url] gives to the file name, and the
    inline send it makes for a payload, if it makes one. *)
Definition extension (media_type : string) : string :=
  if String.eqb media_type "photo" then ".jpg"
  else if String.eqb media_type "video" then ".mp4" else ".mp3".

Definition media_reply (media_type : string) (data : bytes) (caption : text)
    (filename : string) : option chat_request :=
  if String.eqb media_type "video" then Some (ReplyVideo data caption filename)
  else if String.eqb media_type "audio" then Some (ReplyAudio data caption filename)
  else if String.eqb media_type "photo" then Some (ReplyPhoto data caption filename)
  else None.

Definition send_failed (e : exn) : event := EvLog "warning" "Send failed" e.

(** The chats written to by some calls of [broadcast], in order. *)
Definition recipients (ev : list bot_request) : list Z :=
  omap (λ rq, match rq with SendMessage uid _ => Some uid | _ => None end) ev.

(** The calls replayed against the transport: each with whether it was
    accepted at the point where it was made. *)
Fixpoint replay (T : transport) (h : list bot_request) (ev : list bot_request) :
    list (bot_request * bool) :=
  match ev with
  | [] => []
  | rq :: ev' =>
      (rq, match T h rq with None => true | Some _ => false end)
      :: replay T (h ++ [rq]) ev'
  end.

Definition is_send (rq : bot_request) : bool :=
  match rq with SendMessage _ _ => true | _ => false end.

Definition is_sleep (rq : bot_request) : bool :=
  match rq with Sleep => true | _ => false end.

(** The sends that were accepted, the sends that were refused, and the
    pauses that were interrupted. *)
Definition accepted_sends (log : list (bot_request * bool)) : nat :=
  length (filter (λ c, is_send c.1 && c.2 = true) log).

Definition refused_sends (log : list (bot_request * bool)) : nat :=
  length (filter (λ c, is_send c.1 && negb c.2 = true) log).

Definition interrupted_pauses (log : list (bot_request * bool)) : nat :=
  length (filter (λ c, is_sleep c.1 && negb c.2 = true) log).

(** The test of the handlers as a boolean. *)
Definition succeeded_b (field : string) (data : json) : bool :=
  match py_get data "success" JNull with
  | Return ok =>
      truthy ok &&
      match py_get data field JNull with
      | Return v => truthy v
      | Raise _ => false
      end
  | Raise _ => false
  end.

(** The users and the uses of a command among some [track_command] calls. *)
Definition recorded_users (calls : list (Z * string * bool)) : gset Z :=
  list_to_set (map (λ c, c.1.1) calls).

Definition uses (cmd : string) (calls : list (Z * string * bool)) : Z :=
  Z.of_nat (length (filter (λ c, c.1.2 = cmd) calls)).

(** ** Running a computation *)

Lemma run_bind {A B} (m : M A) (k : A → M B) E h s :
  (m ≫= k) E h s =
  match m E h s with
  | (Return a, s1, ev1) =>
      let '(r, s2, ev2) := k a E (h ++ ev1) s1 in (r, s2, ev1 ++ ev2)
  | (Raise e, s1, ev1) => (Raise e, s1, ev1)
  end.
Proof. reflexivity. Qed.

(** ** The cooldown gate *)

Lemma is_admin_spec user_id : is_admin user_id = true ↔ user_id ∈ ADMIN_IDS.
Proof. unfold is_admin. apply bool_decide_eq_true. Qed.

(** C8. For a privileged user the gate answers [(False, 0)], that is "not on
    cooldown, nothing to wait", whatever the clock, the history and the
    session state are; it hands the state back as it found it and performs
    no outside call. *)
Theorem check_cooldown_admin user_id E h s :
  is_admin user_id = true →
  check_cooldown user_id E h s = (Return (false, 0%float), s, []).
Proof.
  intros Hadmin. unfold check_cooldown. now rewrite Hadmin.
Qed.


(** ** The extraction client *)

Lemma http_error_msg_spec status :
  http_error_msg status = None ↔ ¬ (400 ≤ status < 600).
Proof.
  unfold http_error_msg.
  destruct (Z.leb_spec 400 status), (Z.ltb_spec status 500),
    (Z.leb_spec 500 status), (Z.ltb_spec status 600); cbn; split; intros; (done || lia).
Qed.

Lemma call_api_run endpoint url kwargs E h s :
  call_api endpoint url kwargs E h s =
  let rq := api_request endpoint url kwargs in
  match (r ← http E h rq; _ ← raise_for_status r; json_body r) with
  | Return v => (Return v, s, [EvHttp rq])
  | Raise e =>
      (Return (failure e), s,
       [EvHttp rq; EvLog "error" ("API Error (" +:+ endpoint +:+ ")") e])
  end.
Proof.
  unfold call_api, try_except, requests_get, lift, logger, emit, api_request.
  unfold mbind at 1 2 3 4. unfold M_bind, mret, M_ret. cbn beta iota zeta.
  destruct (http E h _) as [r|e]; cbn; [|done].
  destruct (raise_for_status r) as [[]|e]; cbn; [|done].
  destruct (json_body r) as [v|e]; cbn; done.
Qed.

(** The client hands back a value on every path. *)
Lemma call_api_returns endpoint url kwargs E h s :
  ∃ v ev, call_api endpoint url kwargs E h s = (Return v, s, ev).
Proof.
  rewrite call_api_run. cbn zeta.
  destruct (_ ≫= _); eauto.
Qed.

(** C6 (amended). When the transport fails, the status is a 4xx or 5xx, or
    the body of an accepted response does not decode, [call_api] returns,
    without raising, the Failure dict whose error text is [str(e)] of that
    exception, after logging it. *)
Theorem call_api_failure endpoint url kwargs E h s e :
  http_failure E h (api_request endpoint url kwargs) e →
  call_api endpoint url kwargs E h s =
    (Return (failure e), s,
     [EvHttp (api_request endpoint url kwargs);
      EvLog "error" ("API Error (" +:+ endpoint +:+ ")") e]).
Proof.
  intros Hfail. rewrite call_api_run. cbn zeta.
  destruct Hfail as [e Hget | r msg Hget Hrange Hmsg | r e Hget Hrange Hbody];
    rewrite Hget; cbn.
  - done.
  - unfold raise_for_status. now rewrite Hmsg.
  - unfold raise_for_status.
    apply http_error_msg_spec in Hrange. rewrite Hrange. cbn. now rewrite Hbody.
Qed.

(** ** The media relay *)

Lemma send_media_from_url_run file_url media_type caption prefix E h s :
  send_media_from_url file_url media_type caption prefix E h s =
  let rq := media_request file_url in
  let ext :=
    if String.eqb media_type "photo" then ".jpg"
    else if String.eqb media_type "video" then ".mp4" else ".mp3" in
  let warn e := EvLog "warning" "Send failed" e in
  match fetched E h file_url with
  | Raise e => (Return false, s, [EvHttp rq; warn e])
  | Return data =>
      match size_policy media_type data with
      | Raise e => (Return false, s, [EvHttp rq; warn e])
      | Return _ =>
          match reply_media media_type data caption (prefix +:+ ext) E (h ++ [EvHttp rq]) s with
          | (Return _, s', ev) => (Return true, s', EvHttp rq :: ev)
          | (Raise e, s', ev) => (Return false, s', EvHttp rq :: ev ++ [warn e])
          end
      end
  end.
Proof.
  unfold send_media_from_url, fetched, try_except, requests_get, lift, logger, emit,
    media_request.
  unfold mbind at 1 2 3 4 5 6 7. unfold M_bind, mret, M_ret. cbn beta iota zeta.
  destruct (http E h _) as [r|e]; cbn; [|done].
  destruct (raise_for_status r) as [[]|e]; cbn; [|done].
  destruct (content r) as [data|e]; cbn; [|done].
  destruct (size_policy media_type data) as [[]|e]; cbn; [|done].
  rewrite !app_nil_r.
  destruct (reply_media _ _ _ _ _ _ _) as [[[[]|e] s'] ev]; cbn;
    rewrite ?app_nil_r; done.
Qed.

(** C2. Once the fetch has completed with a payload above the limit of its
    kind, [send_media_from_url] returns [False] (the caller defers the item
    as a link): it raises nothing, sends nothing to the chat, and only logs
    the ValueError of the size check. *)
Theorem oversize_is_deferred file_url media_type caption prefix E h s data :
  fetched E h file_url = Return data →
  oversize media_type data →
  ∃ e,
    send_media_from_url file_url media_type caption prefix E h s =
      (Return false, s,
       [EvHttp (media_request file_url); EvLog "warning" "Send failed" e]) ∧
    exn_type e = "ValueError".
Proof.
  intros Hfetch Hover. rewrite send_media_from_url_run. cbn zeta. rewrite Hfetch.
  unfold size_policy.
  destruct Hover as [[-> Hlen] | [-> Hlen]].
  - destruct (Z.ltb_spec (50 * 1024 * 1024) (len data)); [|lia].
    cbn. eauto.
  - destruct (Z.ltb_spec (10 * 1024 * 1024) (len data)); [|lia].
    cbn. eauto.
Qed.

(** C10. The size check lets every audio payload through, and the outcome
    of relaying an audio item is [True] exactly when the fetch completes and
    the chat transport accepts the [reply_audio] call; nothing is raised. *)
Theorem audio_has_no_size_limit :
  (∀ data, size_policy "audio" data = Return tt) ∧
  ∀ file_url caption prefix E h s,
    (send_media_from_url file_url "audio" caption prefix E h s).1.1 =
    Return
      match fetched E h file_url with
      | Return data =>
          accepted E (h ++ [EvHttp (media_request file_url)])
            (ReplyAudio data caption (prefix +:+ ".mp3"))
      | Raise _ => false
      end.
Proof.
  split; [done|].
  intros. rewrite send_media_from_url_run. cbn zeta.
  destruct (fetched E h file_url) as [data|e]; [|done].
  cbn. unfold accepted. destruct (chat E _ _); done.
Qed.

Lemma media_fetches_app ev1 ev2 :
  media_fetches (ev1 ++ ev2) = media_fetches ev1 ++ media_fetches ev2.
Proof. apply omap_app. Qed.

Lemma media_fetches_cons e ev :
  media_fetches (e :: ev) = media_fetches [e] ++ media_fetches ev.
Proof. apply (media_fetches_app [e] ev). Qed.

Lemma reply_media_run media_type data caption filename E h s :
  ∃ r ev,
    reply_media media_type data caption filename E h s = (r, s, ev) ∧
    media_fetches ev = [].
Proof.
  unfold reply_media, chat_call.
  repeat (destruct (String.eqb media_type _)); eauto.
Qed.

(** The relay always answers with a boolean, keeps the state, and performs
    one media fetch. *)
Lemma send_media_from_url_returns file_url media_type caption prefix E h s :
  ∃ b ev,
    send_media_from_url file_url media_type caption prefix E h s = (Return b, s, ev) ∧
    media_fetches ev = [file_url].
Proof.
  rewrite send_media_from_url_run. cbn zeta.
  destruct (fetched E h file_url) as [data|e]; [|eauto].
  destruct (size_policy media_type data) as [[]|e]; [|eauto].
  destruct (reply_media_run media_type data caption
              (prefix +:+ (if String.eqb media_type "photo" then ".jpg"
                           else if String.eqb media_type "video" then ".mp4" else ".mp3"))
              E (h ++ [EvHttp (media_request file_url)]) s)
    as (r & ev & -> & Hev).
  destruct r as [[]|e]; do 2 eexists; (split; [done|]).
  - now rewrite media_fetches_cons, Hev.
  - now rewrite media_fetches_cons, media_fetches_app, Hev.
Qed.

Lemma relay_run_facts E s n h i items sent ev :
  relay_run E s n h i items sent ev →
  length sent = length items ∧
  media_fetches ev = items ∧
  (delivered sent + length (undelivered items sent) = length items)%nat.
Proof.
  induction 1 as [|h i url rest is_video b ev1 sent ev2 Hedit Hin Hsend _ (IHl & IHf & IHc)].
  - done.
  - destruct (send_media_from_url_returns url (if is_video then "video" else "photo")
                (Fmt "Instagram Media {i}" [JInt (Z.of_nat i)]) ("ig_" +:+ pretty i)
                E (h ++ [EvChat (downloading i n)]) s) as (b' & ev' & Hrun & Hev).
    rewrite Hsend in Hrun. injection Hrun as <- <-.
    repeat split.
    + cbn. now rewrite IHl.
    + now rewrite media_fetches_cons, media_fetches_app, Hev, IHf.
    + unfold delivered in *. destruct b; cbn [undelivered].
      * rewrite filter_cons_True by done. cbn [length]. lia.
      * rewrite filter_cons_False by done. cbn [length]. lia.
Qed.

(** The loop invariant: the accumulators grow by the delivered count and by
    the undelivered items of a complete pass. *)
Lemma relay_loop_complete items : ∀ n i uploaded fallback E h s uploaded' fallback' s' ev,
  relay_loop n i items uploaded fallback E h s = (Return (uploaded', fallback'), s', ev) →
  s' = s ∧
  ∃ sent,
    relay_run E s n h i items sent ev ∧
    uploaded' = (uploaded + delivered sent)%nat ∧
    fallback' = fallback ++ undelivered items sent.
Proof.
  induction items as [|url rest IH]; intros n i uploaded fallback E h s uploaded' fallback' s' ev.
  - cbn. intros [= <- <- <- <-]. split; [done|]. exists [].
    split; [constructor|]. unfold delivered. cbn. split; [lia|]. now rewrite app_nil_r.
  - cbn [relay_loop]. fold (downloading i n).
    rewrite run_bind. unfold chat_call at 1.
    destruct (chat E h (downloading i n)) eqn:Hedit; [discriminate|].
    rewrite run_bind. unfold lift at 1.
    destruct (py_str_in "mp4" url) as [is_video|e] eqn:Hin; [|discriminate].
    rewrite run_bind, app_nil_r.
    destruct (send_media_from_url_returns url (if is_video then "video" else "photo")
                (Fmt "Instagram Media {i}" [JInt (Z.of_nat i)]) ("ig_" +:+ pretty i)
                E (h ++ [EvChat (downloading i n)]) s) as (b & ev1 & Hsend & _).
    rewrite Hsend. rewrite <- app_assoc. cbn [app].
    destruct b.
    + destruct (relay_loop n (S i) rest (S uploaded) fallback E _ s)
        as [[r s2] ev2] eqn:Hrec.
      destruct r as [[u f]|e]; [|discriminate]. intros [= <- <- <- <-].
      apply IH in Hrec as (-> & sent & Hrun & -> & ->).
      split; [done|]. exists (true :: sent). split; [|split].
      * econstructor; eauto.
      * unfold delivered. rewrite filter_cons_True by done. cbn [length]. lia.
      * done.
    + destruct (relay_loop n (S i) rest uploaded (fallback ++ [url]) E _ s)
        as [[r s2] ev2] eqn:Hrec.
      destruct r as [[u f]|e]; [|discriminate]. intros [= <- <- <- <-].
      apply IH in Hrec as (-> & sent & Hrun & -> & ->).
      split; [done|]. exists (false :: sent). split; [|split].
      * econstructor; eauto.
      * unfold delivered. rewrite filter_cons_False by done. lia.
      * cbn [undelivered]. now rewrite <- app_assoc.
Qed.

(** The loop as [handle_instagram] starts it: counter at 1, nothing
    uploaded, no fallback. *)
Lemma relay_loop_counts items E h s uploaded fallback s' ev :
  relay_loop (length items) 1 items 0 [] E h s = (Return (uploaded, fallback), s', ev) →
  s' = s ∧
  ∃ sent,
    relay_run E s (length items) h 1 items sent ev ∧
    media_fetches ev = items ∧
    length sent = length items ∧
    uploaded = delivered sent ∧
    fallback = undelivered items sent ∧
    (uploaded + length fallback = length items)%nat.
Proof.
  intros Hloop.
  apply relay_loop_complete in Hloop as (-> & sent & Hrun & -> & ->).
  destruct (relay_run_facts _ _ _ _ _ _ _ _ Hrun) as (Hlen & Hfetch & Hsum).
  split; [done|]. exists sent. cbn [app Nat.add]. repeat split; done.
Qed.

(** ** The command handlers *)

Lemma check_cooldown_run user_id E h s :
  check_cooldown user_id E h s =
  if on_cooldown user_id E h s
  then (Return (true, Py.round1 (Py.int_to_float COMMAND_COOLDOWN - elapsed E h s)%float),
        s, [])
  else (Return (false, 0%float), after_gate user_id E h s, []).
Proof.
  unfold check_cooldown, on_cooldown, after_gate, elapsed.
  destruct (is_admin user_id); [done|].
  unfold mbind, M_bind, time_time, get_user_data, set_user_data. cbn beta iota.
  now destruct (Py.float_lt_int _ _).
Qed.

Lemma after_gate_stats user_id E h s : stats (after_gate user_id E h s) = stats s.
Proof. unfold after_gate. now destruct (is_admin user_id). Qed.

(** C3 (amended). A platform command without its link argument, from a user
    the gate lets through, performs one outside call, the usage reply: no
    HTTP request is made and [stats] is not touched.  The gate has run
    before the argument check: the session state is the one it leaves, which
    is the old one for a privileged user and carries the current time as
    [last_cmd] for any other. *)
Theorem usage_error_effects user_id E h s :
  on_cooldown user_id E h s = false →
  ∃ r1 r2,
    handle_instagram user_id [] E h s =
      (r1, after_gate user_id E h s,
       [EvChat (ReplyText (Fmt "Usage: <b>/instagram <link></b>" []))]) ∧
    handle_tiktok user_id [] E h s =
      (r2, after_gate user_id E h s,
       [EvChat (ReplyText (Fmt "Usage: <b>/tiktok <link></b>" []))]) ∧
    stats (after_gate user_id E h s) = stats s ∧
    (is_admin user_id = true → after_gate user_id E h s = s) ∧
    (is_admin user_id = false →
     user_data (after_gate user_id E h s) !! "last_cmd" = Some (clock E h)).
Proof.
  intros Hfree. unfold handle_instagram, handle_tiktok.
  rewrite !run_bind, check_cooldown_run, Hfree. cbn beta iota.
  unfold chat_call. do 2 eexists. repeat split.
  - apply after_gate_stats.
  - unfold after_gate. now intros ->.
  - unfold after_gate. intros ->. cbn. apply lookup_insert_eq.
Qed.

Lemma call_api_value endpoint link kwargs E h s :
  ∃ ev,
    call_api endpoint link kwargs E h s =
    (Return (extraction endpoint link kwargs E h), s, ev) ∧
    media_fetches ev = [].
Proof.
  rewrite call_api_run. unfold extraction. cbn zeta.
  destruct (_ ≫= _); eauto.
Qed.

Lemma track_run user_id cmd success E h s :
  track user_id cmd success E h s =
  (Return tt, State (track_command user_id cmd success (stats s)) (user_data s), []).
Proof. reflexivity. Qed.

Lemma track_command_mutates_once user_id cmd success st :
  mutated_once st (track_command user_id cmd success st).
Proof. unfold mutated_once. destruct success; cbn; lia. Qed.

(** One step of a computation that must end in [Return]: the head of the
    sequence is run, and the branch where it raises is discharged. *)
Tactic Notation "step_lift" "as" ident(x) :=
  rewrite run_bind; unfold lift at 1; cbn beta iota;
  lazymatch goal with
  | |- context [match ?r with Return _ => _ | Raise _ => _ end] =>
      destruct r as [x|?];
      [cbn beta iota; rewrite ?app_nil_r | cbn beta iota; discriminate]
  end.

Ltac step_chat :=
  rewrite run_bind; unfold chat_call at 1; cbn beta iota;
  lazymatch goal with
  | |- context [chat ?E ?h ?rq] =>
      destruct (chat E h rq); cbn beta iota; [discriminate|]
  end.

(** When the [try] body of [handle_instagram] ends normally, it has made
    exactly one [track_command] call and nothing else to the state. *)
Lemma instagram_try_records user_id link E h s s' ev :
  instagram_try user_id link E h s = (Return tt, s', ev) →
  ∃ success,
    s' = State (track_command user_id "instagram" success (stats s)) (user_data s).
Proof.
  unfold instagram_try. rewrite run_bind.
  destruct (call_api_value "insta" link ∅ E h s) as (ev0 & -> & _). cbn beta iota.
  generalize (extraction "insta" link ∅ E h). intros data.
  step_lift as ok. rewrite run_bind.
  destruct (truthy ok) eqn:Hok.
  - unfold lift at 1.
    destruct (py_get data "urls" JNull) as [cond|e]; [cbn beta iota | discriminate].
    destruct (truthy cond).
    + step_lift as urls. step_lift as items. rewrite run_bind.
      destruct (relay_loop _ _ _ _ _ _ _ _) as [[[[uploaded fallback]|e] s1] ev1] eqn:Hloop;
        [|discriminate].
      apply relay_loop_complete in Hloop as (-> & _). cbn beta iota.
      step_chat. rewrite run_bind.
      destruct fallback as [|u fallback].
      * unfold mret, M_ret. cbn beta iota. rewrite track_run. intros [= <- _]. eauto.
      * unfold chat_call at 1. destruct (chat E _ _); [discriminate|]. cbn beta iota.
        rewrite track_run. intros [= <- _]. eauto.
    + step_lift as err. step_chat. rewrite track_run. intros [= <- _]. eauto.
  - unfold mret, M_ret. cbn beta iota. rewrite Hok.
    step_lift as err. step_chat. rewrite track_run. intros [= <- _]. eauto.
Qed.

(** The same for [handle_tiktok], on the branch of a successful extraction. *)
Lemma tiktok_try_records user_id link E h s s' ev :
  tiktok_try user_id link E h s = (Return tt, s', ev) →
  succeeded "data" (extraction "tiktok" link ∅ E h) →
  ∃ success,
    s' = State (track_command user_id "tiktok" success (stats s)) (user_data s).
Proof.
  unfold tiktok_try. rewrite run_bind.
  destruct (call_api_value "tiktok" link ∅ E h s) as (ev0 & -> & _). cbn beta iota.
  generalize (extraction "tiktok" link ∅ E h). intros data Hrun (ok & v & Hget & Hok & Hget' & Hv).
  revert Hrun.
  rewrite run_bind. unfold lift at 1. rewrite Hget. cbn beta iota.
  rewrite run_bind, Hok. unfold lift at 1. rewrite Hget'. cbn beta iota. rewrite Hv.
  step_lift as records. step_lift as video. step_lift as links.
  step_lift as entry. step_lift as dl. step_lift as title. step_lift as thumb.
  rewrite run_bind.
  assert (Hthumb : ∀ h0, ∃ r evt,
    (if truthy thumb
     then t ← lift (py_getitem video "thumbnail"); chat_call (ReplyPhotoLink t)
     else mret ()) E h0 s = (r, s, evt)).
  { intros h0. destruct (truthy thumb); [|cbn; eauto].
    rewrite run_bind. unfold lift, chat_call.
    destruct (py_getitem video "thumbnail"); cbn beta iota; eauto. }
  destruct (Hthumb (h ++ ev0)) as (r & evt & ->). clear Hthumb.
  destruct r as [[]|e]; [cbn beta iota | discriminate].
  rewrite run_bind.
  destruct (send_media_from_url_returns dl "video" (Fmt "<b>{title}</b>" [title]) "tiktok"
              E ((h ++ ev0) ++ evt) s) as (sent & ev1 & -> & _).
  cbn beta iota.
  destruct sent; step_chat; rewrite track_run; intros [= <- _]; eauto.
Qed.

Lemma media_fetches_chat rq ev : media_fetches (EvChat rq :: ev) = media_fetches ev.
Proof. reflexivity. Qed.

(** C7 (amended). When the extraction succeeds with a list of [N] URLs and
    the [try] body of [handle_instagram] runs to its end, the relay has been
    invoked once per URL in input order, the delivered count and the deferred
    links add up to [N], the deferred links are exactly the items whose relay
    answered [False], and these are the numbers of the closing report. *)
Theorem instagram_relay_report user_id link E h s s' ev items :
  succeeded "urls" (extraction "insta" link ∅ E h) →
  py_getitem (extraction "insta" link ∅ E h) "urls" = Return (JList items) →
  instagram_try user_id link E h s = (Return tt, s', ev) →
  ∃ sent uploaded fallback h1 ev1,
    relay_run E s (length items) h1 1 items sent ev1 ∧
    media_fetches ev = items ∧
    length sent = length items ∧
    uploaded = delivered sent ∧
    fallback = undelivered items sent ∧
    (uploaded + length fallback = length items)%nat ∧
    (fallback ≠ [] → EvChat (report uploaded fallback) ∈ ev).
Proof.
  intros (ok & v & Hget & Hok & Hget' & Hv) Hurls. unfold instagram_try.
  rewrite run_bind.
  destruct (call_api_value "insta" link ∅ E h s) as (ev0 & -> & Hev0). cbn beta iota.
  rewrite run_bind. unfold lift at 1. rewrite Hget. cbn beta iota.
  rewrite run_bind, Hok. unfold lift at 1. rewrite Hget'. cbn beta iota. rewrite Hv.
  rewrite run_bind. unfold lift at 1. rewrite Hurls. cbn beta iota.
  rewrite run_bind. unfold lift at 1. cbn [py_iter]. cbn beta iota.
  rewrite run_bind, !app_nil_r.
  destruct (relay_loop _ _ _ _ _ _ _ _) as [[[[uploaded fallback]|e] s1] ev1] eqn:Hloop;
    [|discriminate].
  apply relay_loop_counts in Hloop as (-> & sent & Hrun & Hfetch & Hlen & Hup & Hfb & Hsum).
  cbn beta iota. step_chat. rewrite run_bind. fold (report uploaded fallback).
  assert (Hfinal : ∀ tail,
    media_fetches tail = [] →
    (fallback ≠ [] → EvChat (report uploaded fallback) ∈ tail) →
    ∃ sent0 uploaded0 fallback0 h1 ev2,
      relay_run E s (length items) h1 1 items sent0 ev2 ∧
      media_fetches (ev0 ++ [] ++ [] ++ [] ++ [] ++ ev1 ++ [EvChat Delete] ++ tail) = items ∧
      length sent0 = length items ∧ uploaded0 = delivered sent0 ∧
      fallback0 = undelivered items sent0 ∧
      (uploaded0 + length fallback0 = length items)%nat ∧
      (fallback0 ≠ [] →
       EvChat (report uploaded0 fallback0)
       ∈ ev0 ++ [] ++ [] ++ [] ++ [] ++ ev1 ++ [EvChat Delete] ++ tail)).
  { intros tail Htail Hreport. exists sent, uploaded, fallback, (h ++ ev0), ev1.
    repeat split; try done.
    - cbn [app]. rewrite !media_fetches_app, Hev0, Hfetch, media_fetches_chat, Htail.
      cbn [app]. apply app_nil_r.
    - intros Hne. rewrite !elem_of_app. do 7 right. now apply Hreport. }
  destruct fallback as [|u fallback].
  - unfold mret, M_ret. cbn beta iota. rewrite track_run. intros [= _ <-].
    apply Hfinal; done.
  - unfold chat_call at 1. cbn beta iota.
    destruct (chat E _ _); cbn beta iota; [discriminate|].
    rewrite track_run. intros [= _ <-]. apply Hfinal; [done|].
    intros _. cbn [app]. apply list_elem_of_here.
Qed.

(** C4 (amended). An invocation that passes the gate with a link and comes
    back without having reported an unexpected error has changed [stats] by
    exactly one [track_command] call: in [handle_instagram] whether the
    extraction succeeded or failed, in [handle_tiktok] when it succeeded. *)
Theorem stats_recorded_once user_id link rest E h s s' ev :
  on_cooldown user_id E h s = false →
  (handle_instagram user_id (link :: rest) E h s = (Return tt, s', ev) →
   EvChat (EditText (Fmt "Unexpected error." [])) ∉ ev →
   mutated_once (stats s) (stats s')) ∧
  (handle_tiktok user_id (link :: rest) E h s = (Return tt, s', ev) →
   EvChat (EditText (Fmt "Error occurred." [])) ∉ ev →
   succeeded "data" (extraction "tiktok" link ∅ E (try_entry h)) →
   mutated_once (stats s) (stats s')).
Proof.
  intros Hfree. split.
  - unfold handle_instagram.
    rewrite run_bind, check_cooldown_run, Hfree. cbn beta iota.
    step_chat. rewrite run_bind. unfold emit at 1. cbn beta iota.
    unfold try_finally, try_except.
    destruct (instagram_try _ _ _ _ _) as [[[[]|e] sb] evb] eqn:Hbody.
    + unfold emit. intros [= <- _] _.
      apply instagram_try_records in Hbody as (success & ->). cbn [stats].
      rewrite after_gate_stats. apply track_command_mutates_once.
    + unfold instagram_except at 1. rewrite run_bind. unfold chat_call at 1.
      destruct (chat E _ _); unfold logger, emit; cbn beta iota;
        intros [= _ <-] Hno; exfalso; apply Hno; set_solver.
  - unfold handle_tiktok.
    rewrite run_bind, check_cooldown_run, Hfree. cbn beta iota.
    step_chat. rewrite run_bind. unfold emit at 1. cbn beta iota.
    unfold try_finally, try_except.
    rewrite app_nil_r, <- app_assoc. cbn [app]. fold (try_entry h).
    destruct (tiktok_try _ _ _ _ _) as [[[[]|e] sb] evb] eqn:Hbody.
    + unfold emit. intros [= <- _] _ Hsucc.
      apply tiktok_try_records in Hbody as (success & ->); [|done]. cbn [stats].
      rewrite after_gate_stats. apply track_command_mutates_once.
    + unfold tiktok_except at 1. rewrite run_bind. unfold chat_call at 1.
      destruct (chat E _ _); unfold logger, emit; cbn beta iota;
        intros [= _ <-] Hno; exfalso; apply Hno; set_solver.
Qed.

(** ** The progress indicator *)

Lemma loading_animation_step_sound c w :
  (∀ e, c ≠ Failed e) → ∀ e, loading_animation_step c w ≠ Failed e.
Proof. intros Hc e. destruct c, w; cbn; try done; apply Hc. Qed.

Lemma loading_animation_run_sound schedule : ∀ c,
  (∀ e, c ≠ Failed e) → ∀ e, fold_left loading_animation_step schedule c ≠ Failed e.
Proof.
  induction schedule as [|w schedule IH]; intros c Hc; cbn.
  - exact Hc.
  - apply IH. now apply loading_animation_step_sound.
Qed.

Lemma loading_animation_finished schedule :
  fold_left loading_animation_step schedule Finished = Finished.
Proof. induction schedule as [|[|e] schedule IH]; cbn; done. Qed.

Lemma loading_animation_thrown c e :
  (∀ e', c ≠ Failed e') → loading_animation_step c (Thrown e) = Finished.
Proof. intros Hc. destruct c; cbn; try done. now destruct (Hc e0). Qed.

Lemma last_cons_Some {A} (a x : A) (l : list A) :
  last l = Some x → last (a :: l) = Some x.
Proof. destruct l; [done|]. now rewrite last_cons_cons. Qed.

(** The events of a handler that started its progress task end with the
    cancellation, whatever the protected block did. *)
Lemma protected_block_cancelled {A} (body : M A) E h s r s' ev :
  try_finally body (emit EvTaskCancel) E h s = (r, s', ev) →
  last ev = Some EvTaskCancel ∧ r = (body E h s).1.1.
Proof.
  unfold try_finally, emit.
  destruct (body E h s) as [[rb sb] evb]. intros [= <- _ <-].
  split; [apply last_snoc | done].
Qed.

(** C9. Whenever a handler has started the progress task, the cancellation
    of the task is the last thing it does, whether it comes back normally or
    with an exception; and the coroutine of the task, woken with an exception
    at either of its awaits (the CancelledError of [task.cancel()] included),
    finishes normally: no schedule of wake-ups makes it fail. *)
Theorem progress_task_cancelled user_id args E h s r s' ev :
  handle_instagram user_id args E h s = (r, s', ev) ∨
  handle_tiktok user_id args E h s = (r, s', ev) →
  EvTaskCreate ∈ ev →
  last ev = Some EvTaskCancel ∧
  (∀ before e after, loading_animation (before ++ Thrown e :: after) = Finished) ∧
  (∀ schedule e, loading_animation schedule ≠ Failed e).
Proof.
  intros Hrun Hstart. split; [|split].
  - assert (Hnot : ∀ rq, EvTaskCreate ∉ [EvChat rq])
      by (intros rq Hin; apply list_elem_of_singleton in Hin; discriminate).
    destruct Hrun as [Hrun|Hrun]; revert Hrun;
      [unfold handle_instagram | unfold handle_tiktok].
    all: rewrite run_bind, check_cooldown_run.
    all: destruct (on_cooldown user_id E h s); cbn beta iota;
      [unfold chat_call; intros [= _ _ <-]; now apply Hnot in Hstart|].
    all: destruct args as [|link rest];
      [unfold chat_call; intros [= _ _ <-]; now apply Hnot in Hstart|].
    all: rewrite run_bind; unfold chat_call at 1; cbn beta iota.
    all: destruct (chat E _ _); cbn beta iota;
      [intros [= _ _ <-]; now apply Hnot in Hstart|].
    all: rewrite run_bind; unfold emit at 1; cbn beta iota.
    all: destruct (try_finally _ _ _ _ _) as [[rb sb] evb] eqn:Hblock.
    all: apply protected_block_cancelled in Hblock as [Hlast _].
    all: intros [= _ _ <-]; cbn [app].
    all: now do 2 apply last_cons_Some.
  - intros before e after. unfold loading_animation.
    rewrite fold_left_app. cbn [fold_left].
    rewrite loading_animation_thrown; [apply loading_animation_finished|].
    now apply loading_animation_run_sound.
  - intros schedule. now apply loading_animation_run_sound.
Qed.

(** ** Statistics *)

Lemma overflow_threshold_large : 1 < overflow_threshold.
Proof. now vm_compute. Qed.

Lemma record_all_cons c calls st :
  record_all (c :: calls) st = record_all calls (track_command c.1.1 c.1.2 c.2 st).
Proof. reflexivity. Qed.

Lemma successes_cons c calls :
  successes (c :: calls) = (if c.2 then 1 else 0) + successes calls.
Proof.
  unfold successes. destruct c as [[u cmd] [|]]; cbn [snd].
  - rewrite filter_cons_True by done. cbn [length]. lia.
  - rewrite filter_cons_False by done. lia.
Qed.

Lemma failures_cons c calls :
  failures (c :: calls) = (if c.2 then 0 else 1) + failures calls.
Proof.
  unfold failures. destruct c as [[u cmd] [|]]; cbn [snd].
  - rewrite filter_cons_False by done. lia.
  - rewrite filter_cons_True by done. cbn [length]. lia.
Qed.

(** The counters after any sequence of calls, from any starting record. *)
Lemma record_all_counters calls : ∀ st,
  total_requests (record_all calls st) = total_requests st + Z.of_nat (length calls) ∧
  successful_requests (record_all calls st) = successful_requests st + successes calls ∧
  failed_requests (record_all calls st) = failed_requests st + failures calls.
Proof.
  induction calls as [|c calls IH]; intros st.
  - unfold successes, failures. cbn. lia.
  - rewrite record_all_cons, successes_cons, failures_cons.
    destruct (IH (track_command c.1.1 c.1.2 c.2 st)) as (Ht & Hs & Hf).
    rewrite Ht, Hs, Hf. cbn [length].
    destruct c as [[u cmd] [|]]; cbn [track_command total_requests
      successful_requests failed_requests fst snd]; lia.
Qed.


Lemma successes_nonneg calls : 0 ≤ successes calls.
Proof. unfold successes. lia. Qed.

Lemma failures_nonneg calls : 0 ≤ failures calls.
Proof. unfold failures. lia. Qed.

(** With [successful <= total] the division of [about] neither divides by
    zero nor overflows. *)
Lemma success_rate_defined st :
  0 ≤ successful_requests st ≤ total_requests st →
  success_rate st =
    Return (nearest_quotient (successful_requests st)
              (Z.max (total_requests st) 1) * 100)%float.
Proof.
  intros Hrange. unfold success_rate, py_truediv.
  destruct (Z.eqb_spec (Z.max (total_requests st) 1) 0) as [Hz|_]; [lia|].
  destruct (Z.leb_spec (overflow_threshold * Z.abs (Z.max (total_requests st) 1))
                       (Z.abs (successful_requests st))) as [Hov|_].
  - pose proof overflow_threshold_large as Hk.
    assert (Z.abs (successful_requests st) ≤ Z.abs (Z.max (total_requests st) 1)) by lia.
    assert (0 < Z.abs (Z.max (total_requests st) 1)) by lia.
    nia.
  - reflexivity.
Qed.


(** * Further properties of the code *)

(** ** The cooldown gate, continued *)

(** X1. A check that lets a non-privileged user through starts the window:
    the next check, made while less than the window has passed since then, is
    blocked, with the wait counted from the accepted command. *)
Theorem cooldown_window_restarts user_id E h s E' h' :
  is_admin user_id = false →
  on_cooldown user_id E h s = false →
  Py.float_lt_int (clock E' h' - clock E h)%float COMMAND_COOLDOWN = true →
  ∃ s1,
    check_cooldown user_id E h s = (Return (false, 0%float), s1, []) ∧
    check_cooldown user_id E' h' s1 =
      (Return (true, Py.round1 (Py.int_to_float COMMAND_COOLDOWN
                                - (clock E' h' - clock E h))%float), s1, []).
Proof.
  intros Hadmin Hfree Hsoon. exists (after_gate user_id E h s).
  rewrite !check_cooldown_run, Hfree. split; [done|].
  unfold on_cooldown, elapsed, after_gate. rewrite Hadmin. cbn [user_data negb andb].
  rewrite lookup_insert_eq. cbn [default from_option id]. now rewrite Hsoon.
Qed.



(** ** Statistics, continued *)

Lemma uses_cons cmd c calls :
  uses cmd (c :: calls) = (if decide (c.1.2 = cmd) then 1 else 0) + uses cmd calls.
Proof.
  unfold uses. destruct (decide (c.1.2 = cmd)).
  - rewrite filter_cons_True by done. cbn [length]. lia.
  - rewrite filter_cons_False by done. lia.
Qed.

Lemma uses_nonneg cmd calls : 0 ≤ uses cmd calls.
Proof. unfold uses. lia. Qed.

(** The set and the per-command counters after any sequence of calls, from
    any starting record. *)
Lemma record_all_registers calls : ∀ st,
  users (record_all calls st) = recorded_users calls ∪ users st ∧
  start_time (record_all calls st) = start_time st ∧
  ∀ cmd,
    commands_used (record_all calls st) !! cmd =
    if uses cmd calls =? 0 then commands_used st !! cmd
    else Some (default 0 (commands_used st !! cmd) + uses cmd calls).
Proof.
  induction calls as [|c calls IH]; intros st.
  - unfold recorded_users. cbn. split; [set_solver|]. split; done.
  - rewrite record_all_cons.
    destruct (IH (track_command c.1.1 c.1.2 c.2 st)) as (Hu & Hs & Hc).
    rewrite Hu, Hs. unfold recorded_users. cbn [map list_to_set track_command users start_time].
    split; [set_solver|]. split; [done|].
    intros cmd. rewrite Hc, uses_cons. cbn [track_command commands_used].
    pose proof (uses_nonneg cmd calls) as Hn.
    destruct (decide (c.1.2 = cmd)) as [<-|Hne].
    + rewrite lookup_insert_eq. cbn [default from_option id].
      destruct (Z.eqb_spec (uses c.1.2 calls) 0) as [->|_];
        (destruct (Z.eqb_spec (1 + uses c.1.2 calls) 0); [lia|]).
      * now rewrite Z.add_0_r.
      * f_equal. lia.
    + rewrite lookup_insert_ne by done. cbn [Z.add]. done.
Qed.

(** X4. After any sequence of [track_command] calls on the initial record,
    the set of users holds exactly the users of the calls, the counter of a
    command is the number of calls made for it (and a command never used has
    no entry), and the start time is the initial one. *)
Theorem stats_register_calls start calls :
  let st := record_all calls (initial_stats start) in
  users st = recorded_users calls ∧
  (∀ user_id, user_id ∈ users st ↔ ∃ cmd ok, (user_id, cmd, ok) ∈ calls) ∧
  (∀ cmd, commands_used st !! cmd =
          if uses cmd calls =? 0 then None else Some (uses cmd calls)) ∧
  start_time st = start.
Proof.
  intros st. destruct (record_all_registers calls (initial_stats start)) as (Hu & Hs & Hc).
  fold st in Hu, Hs, Hc. cbn [initial_stats users commands_used start_time] in Hu, Hs, Hc.
  assert (Husers : users st = recorded_users calls) by (rewrite Hu; set_solver).
  split; [exact Husers|]. split; [|split; [|exact Hs]].
  - intros user_id. rewrite Husers. unfold recorded_users.
    rewrite elem_of_list_to_set, list_elem_of_fmap. split.
    + intros ([[u cmd] ok] & -> & Hin). eauto.
    + intros (cmd & ok & Hin). exists (user_id, cmd, ok). done.
  - intros cmd. rewrite Hc, lookup_empty. cbn [default from_option id].
    destruct (uses cmd calls =? 0); [done|]. f_equal.
Qed.

(** X5. [track_command] only ever adds: over any sequence of calls, from any
    record, no counter decreases, no user is forgotten, and no per-command
    counter decreases (an absent entry counting as 0). *)
Theorem stats_never_decrease calls st :
  let st' := record_all calls st in
  total_requests st ≤ total_requests st' ∧
  successful_requests st ≤ successful_requests st' ∧
  failed_requests st ≤ failed_requests st' ∧
  users st ⊆ users st' ∧
  ∀ cmd, default 0 (commands_used st !! cmd) ≤ default 0 (commands_used st' !! cmd).
Proof.
  intros st'.
  destruct (record_all_counters calls st) as (Ht & Hs & Hf).
  destruct (record_all_registers calls st) as (Hu & _ & Hc).
  fold st' in Ht, Hs, Hf, Hu, Hc.
  pose proof (successes_nonneg calls). pose proof (failures_nonneg calls).
  repeat split; try lia.
  - rewrite Hu. set_solver.
  - intros cmd. rewrite Hc. pose proof (uses_nonneg cmd calls).
    destruct (uses cmd calls =? 0); cbn [default from_option id]; lia.
Qed.

(** X6. With counters as [track_command] leaves them, [about] sends one
    reply and changes nothing.  The reply breaks the uptime down so that the
    hours stay below 24 and the minutes below 60, and days, hours and minutes
    together are the uptime in seconds cut to the minute; it also carries the
    number of users, the total and the rate. *)
Theorem about_reports_uptime E h s :
  0 ≤ successful_requests (stats s) ≤ total_requests (stats s) →
  ∃ r t d hh m rate,
    about E h s = (r, s, [EvChat (ReplyHtml t)]) ∧
    values t = [JInt d; JInt hh; JInt m; JInt (Z.of_nat (size (users (stats s))));
                JInt (total_requests (stats s)); JFloat rate] ∧
    success_rate (stats s) = Return rate ∧
    0 ≤ hh < 24 ∧ 0 ≤ m < 60 ∧
    let seconds := (datetime_now E h - start_time (stats s)) / 1000000 in
    d * 86400 + hh * 3600 + m * 60 ≤ seconds < d * 86400 + hh * 3600 + m * 60 + 60.
Proof.
  intros Hrange. pose proof (success_rate_defined (stats s) Hrange) as Hrate.
  unfold about, mbind, M_bind, now_datetime, get_stats, lift, chat_call.
  cbn beta iota. rewrite Hrate.
  set (uptime := datetime_now E h - start_time (stats s)).
  do 6 eexists. split; [reflexivity|]. cbn [values].
  split; [reflexivity|]. split; [reflexivity|]. cbn zeta.
  Z.div_mod_to_equations. lia.
Qed.

(** ** The progress indicator, continued *)

Lemma loading_animation_two_wakes k : ∀ i,
  fold_left loading_animation_step (replicate (2 * k) Resumed) (AwaitEdit i)
  = AwaitEdit (i + k).
Proof.
  induction k as [|k IH]; intros i.
  - cbn. f_equal. lia.
  - replace (2 * S k)%nat with (S (S (2 * k))) by lia. cbn [replicate fold_left].
    cbn [loading_animation_step]. rewrite IH. f_equal. lia.
Qed.

(** X7. Left to run, the animation is at its [k]-th edit (counting from 0)
    after [k] edits and [k] pauses, and that edit shows frame [k mod 10] of
    the ten frames: the index never leaves the list, and the frames repeat with
    period ten. *)
Theorem spinner_cycles k :
  loading_animation (replicate (2 * k) Resumed) = AwaitEdit k ∧
  pending_edit (AwaitEdit (k + 10)) = pending_edit (AwaitEdit k) ∧
  ∃ frame,
    spinner !! (k `mod` 10)%nat = Some frame ∧
    pending_edit (AwaitEdit k) =
      Some (EditText (Fmt "{spinner[i % 10]} Processing..." [JStr frame])).
Proof.
  split; [apply (loading_animation_two_wakes k 0)|]. split.
  - unfold pending_edit. do 4 f_equal.
    replace (k + 10)%nat with (k + 1 * 10)%nat by lia. now rewrite Nat.Div0.mod_add.
  - assert (Hlt : (k `mod` 10 < length spinner)%nat)
      by (cbn [spinner length]; apply Nat.mod_upper_bound; lia).
    apply lookup_lt_is_Some in Hlt as (frame & Hframe).
    exists frame. split; [done|]. unfold pending_edit. now rewrite Hframe.
Qed.

(** ** The extraction client, continued *)

(** X8. [call_api] makes one attempt: whatever the world answers, it returns
    a value without raising, leaves the state alone, and its only request is
    the first event, a GET of [{base}/{endpoint}] with a timeout of 30 that
    carries the link as [url] beside the extra parameters. *)
Theorem call_api_single_attempt endpoint url kwargs E h s :
  ∃ v rq tail,
    call_api endpoint url kwargs E h s = (Return v, s, EvHttp rq :: tail) ∧
    (∀ rq', EvHttp rq' ∉ tail) ∧
    rq_url rq = JStr (API_BASE_URL +:+ "/" +:+ endpoint) ∧
    rq_timeout rq = 30 ∧
    rq_stream rq = false ∧
    ∀ k, rq_params rq !! k =
         match kwargs !! k with
         | Some x => Some x
         | None => if decide (k = "url") then Some url else None
         end.
Proof.
  rewrite call_api_run. cbn zeta.
  assert (Hparams : ∀ k, rq_params (api_request endpoint url kwargs) !! k =
            match kwargs !! k with
            | Some x => Some x
            | None => if decide (k = "url") then Some url else None
            end).
  { intros k. unfold api_request. cbn [rq_params]. rewrite lookup_union.
    destruct (kwargs !! k) as [x|] eqn:Hk.
    - now destruct ({["url" := url]} !! k).
    - destruct (decide (k = "url")) as [->|Hne].
      + now rewrite lookup_singleton_eq.
      + now rewrite lookup_singleton_ne. }
  destruct (_ ≫= _) as [v|e]; do 3 eexists; (split; [reflexivity|]);
    (split; [|repeat split; apply Hparams]); intros rq' Hin.
  - now apply elem_of_nil in Hin.
  - apply list_elem_of_singleton in Hin. discriminate.
Qed.

(** X9. When the response is accepted (its status is not a 4xx or 5xx) and
    its body decodes, [call_api] returns the decoded body as it is, whatever
    its shape, and logs nothing. *)
Theorem call_api_success endpoint url kwargs E h s r v :
  http E h (api_request endpoint url kwargs) = Return r →
  ¬ (400 ≤ status_code r < 600) →
  json_body r = Return v →
  call_api endpoint url kwargs E h s =
    (Return v, s, [EvHttp (api_request endpoint url kwargs)]).
Proof.
  intros Hget Hstatus Hbody. rewrite call_api_run. cbn zeta. rewrite Hget. cbn.
  unfold raise_for_status. apply http_error_msg_spec in Hstatus. rewrite Hstatus. cbn.
  now rewrite Hbody.
Qed.

(** ** The media relay, continued *)

Lemma reply_media_spec media_type data caption filename E h s :
  reply_media media_type data caption filename E h s =
  match media_reply media_type data caption filename with
  | Some rq => chat_call rq E h s
  | None => (Return tt, s, [])
  end.
Proof.
  unfold reply_media, media_reply.
  repeat (destruct (String.eqb media_type _)); reflexivity.
Qed.

Lemma size_policy_spec_aux media_type data :
  (¬ oversize media_type data → size_policy media_type data = Return tt) ∧
  (oversize media_type data →
   ∃ e, size_policy media_type data = Raise e ∧ exn_type e = "ValueError").
Proof.
  unfold size_policy, oversize.
  destruct (String.eqb_spec media_type "video") as [->|Hvideo];
    [|destruct (String.eqb_spec media_type "photo") as [->|Hphoto]]; cbn [andb].
  - destruct (Z.ltb_spec (50 * 1024 * 1024) (len data)); cbn.
    + split; [intros Hno; destruct Hno; auto | eauto].
    + split; [done | intros [[_ ?]|[? _]]; (lia || discriminate)].
  - destruct (Z.ltb_spec (10 * 1024 * 1024) (len data)); cbn.
    + split; [intros Hno; destruct Hno; auto | eauto].
    + split; [done | intros [[? _]|[_ ?]]; (lia || discriminate)].
  - split; [done | intros [[? _]|[? _]]; congruence].
Qed.

(** X10. The size check passes exactly the payloads that are not above the
    limit of their kind (a video of exactly 50 MiB, a photo of exactly 10 MiB
    and every payload of another kind pass), and what it raises is a
    ValueError. *)
Theorem size_policy_spec media_type data :
  (size_policy media_type data = Return tt ↔ ¬ oversize media_type data) ∧
  (∀ e, size_policy media_type data = Raise e → exn_type e = "ValueError").
Proof.
  destruct (size_policy_spec_aux media_type data) as [Hfits Hover]. split; [split|].
  - intros Hpass Hbig. apply Hover in Hbig as (e & Hraise & _). congruence.
  - exact Hfits.
  - intros e Hraise.
    assert (Hbig : oversize media_type data).
    { unfold oversize.
      destruct (String.eqb_spec media_type "video") as [->|?];
        [destruct (Z.ltb_spec (50 * 1024 * 1024) (len data)); [auto|]
        |destruct (String.eqb_spec media_type "photo") as [->|?];
         [destruct (Z.ltb_spec (10 * 1024 * 1024) (len data)); [auto|]|]];
        (rewrite (proj1 (size_policy_spec_aux _ data)) in Hraise; [discriminate|];
         unfold oversize; intros [[? ?]|[? ?]]; (lia || congruence)). }
    apply Hover in Hbig as (e' & Hraise' & Htype). congruence.
Qed.

(** X11. When the fetch fails (the request raises, the status is rejected, or
    the body cannot be read), the relay answers [False] after logging the
    exception: nothing is sent to the chat and nothing is raised. *)
Theorem fetch_failure_is_deferred file_url media_type caption prefix E h s e :
  fetched E h file_url = Raise e →
  send_media_from_url file_url media_type caption prefix E h s =
    (Return false, s, [EvHttp (media_request file_url); send_failed e]).
Proof.
  intros Hfetch. rewrite send_media_from_url_run. cbn zeta. now rewrite Hfetch.
Qed.

(** X12. For a fetched payload within the limit of its kind, the relay makes
    the one inline send of that kind (video, audio or photo), under the name
    [prefix] plus the extension of the kind, and answers [True] if the chat
    transport accepts it; if the transport raises, the exception is logged
    and the answer is [False].  For any other kind it sends nothing and still
    answers [True]. *)
Theorem delivery_follows_transport file_url media_type caption prefix E h s data :
  fetched E h file_url = Return data →
  ¬ oversize media_type data →
  send_media_from_url file_url media_type caption prefix E h s =
  let fetch := EvHttp (media_request file_url) in
  match media_reply media_type data caption (prefix +:+ extension media_type) with
  | Some rq =>
      match chat E (h ++ [fetch]) rq with
      | None => (Return true, s, [fetch; EvChat rq])
      | Some e => (Return false, s, [fetch; EvChat rq; send_failed e])
      end
  | None => (Return true, s, [fetch])
  end.
Proof.
  intros Hfetch Hfits. rewrite send_media_from_url_run. cbn zeta. rewrite Hfetch.
  apply (proj1 (size_policy_spec_aux media_type data)) in Hfits. rewrite Hfits.
  rewrite reply_media_spec. fold (extension media_type).
  destruct (media_reply _ _ _ _) as [rq|]; [|done].
  unfold chat_call. now destruct (chat E _ rq).
Qed.

(** X13. Every relay attempt ends with an answer, never with an exception;
    it fetches its URL once, streamed and with a timeout of 60, leaves the
    state alone, and has logged a "Send failed" warning exactly when the
    answer is [False]. *)
Theorem relay_logs_every_failure file_url media_type caption prefix E h s :
  ∃ b ev,
    send_media_from_url file_url media_type caption prefix E h s = (Return b, s, ev) ∧
    media_fetches ev = [file_url] ∧
    (∀ rq, EvHttp rq ∈ ev → rq = HttpGet file_url ∅ 60 true) ∧
    (b = false ↔ ∃ e, send_failed e ∈ ev).
Proof.
  rewrite send_media_from_url_run. cbn zeta.
  assert (Hhere : ∀ e l, send_failed e ∈ EvHttp (media_request file_url) :: l ++ [send_failed e])
    by (intros; rewrite elem_of_cons, elem_of_app, list_elem_of_singleton; auto).
  destruct (fetched E h file_url) as [data|e].
  2:{ do 2 eexists. split; [reflexivity|]. split; [reflexivity|]. split.
      - intros rq Hin. apply elem_of_cons in Hin as [[= ->]|Hin]; [done|].
        apply list_elem_of_singleton in Hin. discriminate.
      - split; [intros _; exists e; apply (Hhere e [])|done]. }
  destruct (size_policy media_type data) as [[]|e].
  2:{ do 2 eexists. split; [reflexivity|]. split; [reflexivity|]. split.
      - intros rq Hin. apply elem_of_cons in Hin as [[= ->]|Hin]; [done|].
        apply list_elem_of_singleton in Hin. discriminate.
      - split; [intros _; exists e; apply (Hhere e [])|done]. }
  rewrite reply_media_spec.
  destruct (media_reply _ _ _ _) as [rq0|]; unfold chat_call;
    [destruct (chat E _ rq0) as [e|]|]; do 2 eexists;
    (split; [reflexivity|]); (split; [reflexivity|]); split.
  - intros rq Hin. apply elem_of_cons in Hin as [[= ->]|Hin]; [done|].
    apply elem_of_app in Hin as [Hin|Hin]; apply list_elem_of_singleton in Hin; discriminate.
  - split; [intros _; exists e; apply (Hhere e [_])|done].
  - intros rq Hin. apply elem_of_cons in Hin as [[= ->]|Hin]; [done|].
    apply list_elem_of_singleton in Hin. discriminate.
  - split; [discriminate|]. intros (e & Hin).
    apply elem_of_cons in Hin as [?|Hin]; [discriminate|].
    apply list_elem_of_singleton in Hin. discriminate.
  - intros rq Hin. apply list_elem_of_singleton in Hin as [= ->]. done.
  - split; [discriminate|]. intros (e & Hin).
    apply list_elem_of_singleton in Hin. discriminate.
Qed.

(** ** The command handlers, continued *)

Lemma succeeded_b_spec field data :
  succeeded_b field data = true ↔ succeeded field data.
Proof.
  unfold succeeded_b, succeeded. split.
  - destruct (py_get data "success" JNull) as [ok|]; [|done].
    destruct (py_get data field JNull) as [v|]; [|now rewrite andb_false_r].
    intros [Hok Hv]%andb_true_iff. eauto 10.
  - intros (ok & v & -> & Hok & -> & Hv). now rewrite Hok, Hv.
Qed.

Lemma media_fetches_log level prefix e ev :
  media_fetches (EvLog level prefix e :: ev) = media_fetches ev.
Proof. reflexivity. Qed.

(** An interrupted loop: the state is kept, and the relay has been invoked
    for the items before the one at which the loop stopped. *)
Lemma relay_loop_raises items : ∀ n i uploaded fallback E h s e s' ev,
  relay_loop n i items uploaded fallback E h s = (Raise e, s', ev) →
  s' = s ∧ ∃ k, (k < length items)%nat ∧ media_fetches ev = take k items.
Proof.
  induction items as [|url rest IH]; intros n i uploaded fallback E h s e s' ev.
  - discriminate.
  - cbn [relay_loop]. fold (downloading i n).
    rewrite run_bind. unfold chat_call at 1. cbn beta iota.
    destruct (chat E h (downloading i n)); cbn beta iota.
    { intros [= _ <- <-]. split; [done|]. exists 0%nat. cbn. split; [lia|done]. }
    rewrite run_bind. unfold lift at 1. cbn beta iota.
    destruct (py_str_in "mp4" url) as [is_video|e0]; cbn beta iota.
    2:{ intros [= _ <- <-]. split; [done|]. exists 0%nat. cbn. split; [lia|done]. }
    rewrite run_bind, app_nil_r.
    destruct (send_media_from_url_returns url (if is_video then "video" else "photo")
                (Fmt "Instagram Media {i}" [JInt (Z.of_nat i)]) ("ig_" +:+ pretty i)
                E (h ++ [EvChat (downloading i n)]) s) as (b & ev1 & -> & Hev1).
    cbn beta iota.
    assert (Hrest : ∀ r s2 ev2 up fb,
      relay_loop n (S i) rest up fb E ((h ++ [EvChat (downloading i n)]) ++ ev1) s
        = (r, s2, ev2) →
      (r, s2, [EvChat (downloading i n)] ++ [] ++ ev1 ++ ev2) = (Raise e, s', ev) →
      s' = s ∧ ∃ k, (k < length (url :: rest))%nat ∧ media_fetches ev = take k (url :: rest)).
    { intros r s2 ev2 up fb Hrec [= -> <- <-].
      apply IH in Hrec as (-> & k & Hk & Hfetch). split; [done|].
      exists (S k). cbn [length take app]. split; [lia|].
      now rewrite media_fetches_chat, media_fetches_app, Hev1, Hfetch. }
    destruct b.
    + destruct (relay_loop n (S i) rest (S uploaded) fallback E _ s)
        as [[r s2] ev2] eqn:Hrec. now apply Hrest with (S uploaded) fallback.
    + destruct (relay_loop n (S i) rest uploaded (fallback ++ [url]) E _ s)
        as [[r s2] ev2] eqn:Hrec. now apply Hrest with uploaded (fallback ++ [url]).
Qed.

Lemma undelivered_sublist items : ∀ sent, sublist (undelivered items sent) items.
Proof.
  induction items as [|url items IH]; intros [|[|] sent]; cbn [undelivered];
    try apply sublist_nil_l.
  - apply sublist_cons_r. left. apply IH.
  - apply sublist_skip, IH.
Qed.

(** X14. When the loop of [handle_instagram] is cut short by an exception
    (a refused status edit, or an item that [in] cannot test), the state is
    as before the loop and the relay has been invoked, in input order, only
    for the items before the one at which it stopped: fewer than [N] times. *)
Theorem relay_loop_interrupted items E h s e s' ev :
  relay_loop (length items) 1 items 0 [] E h s = (Raise e, s', ev) →
  s' = s ∧
  ∃ k, (k < length items)%nat ∧ media_fetches ev = take k items.
Proof. apply relay_loop_raises. Qed.

(** X15. When the loop runs to its end, the deferred links are some of the
    input URLs in their input order, the delivered count does not exceed [N],
    and it equals [N] exactly when no link was deferred. *)
Theorem deferred_links_keep_order items E h s uploaded fallback s' ev :
  relay_loop (length items) 1 items 0 [] E h s = (Return (uploaded, fallback), s', ev) →
  sublist fallback items ∧
  (uploaded ≤ length items)%nat ∧
  (uploaded = length items ↔ fallback = []).
Proof.
  intros Hloop.
  apply relay_loop_counts in Hloop as (_ & sent & _ & _ & _ & _ & -> & Hsum).
  split; [apply undelivered_sublist|]. split; [lia|].
  destruct (undelivered items sent) as [|u l]; cbn [length] in *; split;
    (done || lia || discriminate).
Qed.

Ltac leaf := cbn beta iota; intros Heq; inversion Heq; subst; clear Heq.

Tactic Notation "walk_lift" "as" ident(x) ident(H) :=
  rewrite run_bind; unfold lift at 1; cbn beta iota;
  lazymatch goal with
  | |- context [match ?r with Return _ => _ | Raise _ => _ end] =>
      destruct r as [x|?] eqn:H; [cbn beta iota; rewrite ?app_nil_r | leaf; try done]
  end.

Ltac walk_chat :=
  rewrite run_bind; unfold chat_call at 1; cbn beta iota;
  lazymatch goal with
  | |- context [chat ?E ?h ?rq] =>
      destruct (chat E h rq); cbn beta iota; [leaf; try done|]
  end.

Lemma instagram_try_outcome user_id link E h s r s' ev :
  instagram_try user_id link E h s = (r, s', ev) →
  let data := extraction "insta" link ∅ E h in
  match r with
  | Raise _ => s' = s
  | Return _ =>
      s' = State (track_command user_id "instagram" (succeeded_b "urls" data) (stats s))
                 (user_data s) ∧
      (succeeded_b "urls" data = false →
       media_fetches ev = [] ∧
       ∃ err, py_get data "error" (JStr "Unknown") = Return err ∧
              EvChat (EditText (Fmt "Error: {error}" [err])) ∈ ev)
  end.
Proof.
  unfold instagram_try. rewrite run_bind.
  destruct (call_api_value "insta" link ∅ E h s) as (ev0 & -> & Hev0). cbn beta iota.
  set (data := extraction "insta" link ∅ E h). cbn zeta.
  assert (Hfailed : ∀ err,
    media_fetches (ev0 ++ [EvChat (EditText (Fmt "Error: {error}" [err]))]) = [] ∧
    EvChat (EditText (Fmt "Error: {error}" [err]))
      ∈ ev0 ++ [EvChat (EditText (Fmt "Error: {error}" [err]))]).
  { intros err. split.
    - now rewrite media_fetches_app, Hev0.
    - rewrite elem_of_app. right. apply list_elem_of_here. }
  walk_lift as ok Hget. rewrite run_bind.
  unfold succeeded_b. rewrite Hget.
  destruct (truthy ok) eqn:Hok; cbn [andb].
  - unfold lift at 1. cbn beta iota.
    destruct (py_get data "urls" JNull) as [cond|e0] eqn:Hget'; cbn beta iota; [|leaf; done].
    destruct (truthy cond) eqn:Hcond.
    + walk_lift as urls Hurls. walk_lift as items Hitems. rewrite run_bind.
      destruct (relay_loop _ _ _ _ _ _ _ _) as [[[[uploaded fallback]|e0] s1] ev1] eqn:Hloop.
      2:{ apply relay_loop_raises in Hloop as (-> & _). leaf. done. }
      apply relay_loop_complete in Hloop as (-> & _). cbn beta iota.
      walk_chat. rewrite run_bind.
      destruct fallback as [|u fallback].
      * unfold mret, M_ret. cbn beta iota. rewrite track_run. leaf. split; done.
      * unfold chat_call at 1. cbn beta iota.
        destruct (chat E _ _); cbn beta iota; [leaf; done|].
        rewrite track_run. leaf. split; done.
    + walk_lift as err Herr. walk_chat. rewrite track_run. leaf.
      split; [done|]. intros _. cbn [app].
      destruct (Hfailed err) as [Hfetch Hin]. eauto.
  - unfold mret, M_ret. cbn beta iota. rewrite Hok.
    walk_lift as err Herr. walk_chat. rewrite track_run. leaf.
    split; [done|]. intros _. cbn [app].
    destruct (Hfailed err) as [Hfetch Hin]. eauto.
Qed.

Lemma tiktok_try_outcome user_id link E h s r s' ev :
  tiktok_try user_id link E h s = (r, s', ev) →
  let data := extraction "tiktok" link ∅ E h in
  match r with
  | Raise _ => s' = s
  | Return _ =>
      if succeeded_b "data" data then
        ∃ dl title h1 b ev1,
          send_media_from_url dl "video" (Fmt "<b>{title}</b>" [title]) "tiktok" E h1 s
            = (Return b, s, ev1) ∧
          s' = State (track_command user_id "tiktok" b (stats s)) (user_data s) ∧
          EvChat (if b then Delete
                  else EditText (Fmt "Too large. <a href='{dl}'>Download here</a>" [dl]))
            ∈ ev
      else
        s' = s ∧ media_fetches ev = [] ∧
        ∃ err, py_get data "error" (JStr "Not found") = Return err ∧
               EvChat (EditText (Fmt "Error: {error}" [err])) ∈ ev
  end.
Proof.
  unfold tiktok_try. rewrite run_bind.
  destruct (call_api_value "tiktok" link ∅ E h s) as (ev0 & -> & Hev0). cbn beta iota.
  set (data := extraction "tiktok" link ∅ E h). cbn zeta.
  assert (Hfailed : ∀ err,
    media_fetches (ev0 ++ [EvChat (EditText (Fmt "Error: {error}" [err]))]) = [] ∧
    EvChat (EditText (Fmt "Error: {error}" [err]))
      ∈ ev0 ++ [EvChat (EditText (Fmt "Error: {error}" [err]))]).
  { intros err. split.
    - now rewrite media_fetches_app, Hev0.
    - rewrite elem_of_app. right. apply list_elem_of_here. }
  walk_lift as ok Hget. rewrite run_bind.
  unfold succeeded_b. rewrite Hget.
  assert (Herror : ∀ r0 s0 ev1,
    (err ← lift (py_get data "error" (JStr "Not found"));
     chat_call (EditText (Fmt "Error: {error}" [err]))) E (h ++ ev0) s = (r0, s0, ev1) →
    (r0, s0, ev0 ++ ev1) = (r, s', ev) →
    match r with
    | Raise _ => s' = s
    | Return _ =>
        s' = s ∧ media_fetches ev = [] ∧
        ∃ err, py_get data "error" (JStr "Not found") = Return err ∧
               EvChat (EditText (Fmt "Error: {error}" [err])) ∈ ev
    end).
  { intros r0 s0 ev1. rewrite run_bind. unfold lift at 1. cbn beta iota.
    destruct (py_get data "error" (JStr "Not found")) as [err|e0]; cbn beta iota.
    2:{ intros [= <- <- <-] [= <- <- <-]. done. }
    unfold chat_call. rewrite app_nil_r. cbn [app].
    destruct (Hfailed err) as [Hfetch Hin].
    destruct (chat E _ _); intros [= <- <- <-] [= <- <- <-]; [done|]. eauto. }
  destruct (truthy ok) eqn:Hok; cbn [andb].
  - unfold lift at 1. cbn beta iota.
    destruct (py_get data "data" JNull) as [cond|e0] eqn:Hget'; cbn beta iota; [|leaf; done].
    rewrite app_nil_r.
    destruct (truthy cond) eqn:Hcond.
    + walk_lift as records Hrecords. walk_lift as video Hvideo.
      walk_lift as links Hlinks. walk_lift as entry Hentry. walk_lift as dl Hdl.
      walk_lift as title Htitle. walk_lift as thumb Hthumb.
      rewrite run_bind.
      assert (Hphoto : ∀ h0, ∃ r0 evt,
        (if truthy thumb
         then t ← lift (py_getitem video "thumbnail"); chat_call (ReplyPhotoLink t)
         else mret ()) E h0 s = (r0, s, evt)).
      { intros h0. destruct (truthy thumb); [|cbn; eauto].
        rewrite run_bind. unfold lift, chat_call.
        destruct (py_getitem video "thumbnail"); cbn beta iota; eauto. }
      destruct (Hphoto (h ++ ev0)) as (r0 & evt & ->). clear Hphoto.
      destruct r0 as [[]|e0]; cbn beta iota; [|leaf; done].
      rewrite run_bind.
      destruct (send_media_from_url_returns dl "video" (Fmt "<b>{title}</b>" [title]) "tiktok"
                  E ((h ++ ev0) ++ evt) s) as (sent & ev1 & Hsend & _).
      rewrite Hsend. cbn beta iota.
      clear Herror.
      destruct sent; walk_chat; rewrite track_run; leaf.
      * exists dl, title, ((h ++ ev0) ++ evt), true, ev1. split; [exact Hsend|].
        split; [done|]. cbn [app]. rewrite !elem_of_app. do 3 right.
        apply list_elem_of_here.
      * exists dl, title, ((h ++ ev0) ++ evt), false, ev1. split; [exact Hsend|].
        split; [done|]. cbn [app]. rewrite !elem_of_app. do 3 right.
        apply list_elem_of_here.
    + lazymatch goal with
      | |- context [(?m ≫= ?k) E (h ++ ev0) s] =>
          destruct ((m ≫= k) E (h ++ ev0) s) as [[r0 s0] ev1] eqn:Hrun
      end.
      cbn beta iota. cbn [app]. exact (Herror r0 s0 ev1 eq_refl).
  - unfold mret at 1, M_ret at 1. cbn beta iota. rewrite app_nil_r, Hok.
    lazymatch goal with
    | |- context [(?m ≫= ?k) E (h ++ ev0) s] =>
        destruct ((m ≫= k) E (h ++ ev0) s) as [[r0 s0] ev1] eqn:Hrun
    end.
    cbn beta iota. cbn [app]. exact (Herror r0 s0 ev1 eq_refl).
Qed.

(** The state a handler leaves: the gate's, changed by nothing but the
    [try] body. *)
Lemma protected_block_state (body : M unit) (handler : exn → M unit) E h s :
  (∀ e h0 s0, (handler e E h0 s0).1.2 = s0) →
  (try_finally (try_except body handler) (emit EvTaskCancel) E h s).1.2
  = (body E h s).1.2.
Proof.
  intros Hkeep. unfold try_finally, try_except, emit.
  destruct (body E h s) as [[[[]|e] s1] ev1]; [done|].
  specialize (Hkeep e (h ++ ev1) s1).
  now destruct (handler e E (h ++ ev1) s1) as [[r2 s2] ev2].
Qed.

Lemma instagram_except_state e E h s : (instagram_except e E h s).1.2 = s.
Proof.
  unfold instagram_except. rewrite run_bind. unfold chat_call, logger, emit.
  now destruct (chat E h _).
Qed.

Lemma tiktok_except_state e E h s : (tiktok_except e E h s).1.2 = s.
Proof.
  unfold tiktok_except. rewrite run_bind. unfold chat_call, logger, emit.
  now destruct (chat E h _).
Qed.

Lemma handle_instagram_state user_id args E h s :
  (handle_instagram user_id args E h s).1.2 =
  if on_cooldown user_id E h s then s
  else match args with
       | [] => after_gate user_id E h s
       | link :: _ =>
           match chat E h (ReplyText (Fmt "⏳ Processing..." [])) with
           | Some _ => after_gate user_id E h s
           | None =>
               (instagram_try user_id link E (try_entry h) (after_gate user_id E h s)).1.2
           end
       end.
Proof.
  unfold handle_instagram. rewrite run_bind, check_cooldown_run.
  destruct (on_cooldown user_id E h s); cbn beta iota; [done|].
  destruct args as [|link rest]; [done|].
  rewrite run_bind, app_nil_r. unfold chat_call at 1. cbn beta iota.
  destruct (chat E h _); cbn beta iota; [done|].
  rewrite run_bind. unfold emit at 1. cbn beta iota.
  rewrite <- app_assoc. cbn [app]. fold (try_entry h).
  pose proof (protected_block_state (instagram_try user_id link) instagram_except
                E (try_entry h) (after_gate user_id E h s)
                (λ e h0 s0, instagram_except_state e E h0 s0)) as Hstate.
  now destruct (try_finally _ _ _ _ _) as [[r1 s1] ev1].
Qed.

Lemma handle_tiktok_state user_id args E h s :
  (handle_tiktok user_id args E h s).1.2 =
  if on_cooldown user_id E h s then s
  else match args with
       | [] => after_gate user_id E h s
       | link :: _ =>
           match chat E h (ReplyText (Fmt "⏳ Processing..." [])) with
           | Some _ => after_gate user_id E h s
           | None =>
               (tiktok_try user_id link E (try_entry h) (after_gate user_id E h s)).1.2
           end
       end.
Proof.
  unfold handle_tiktok. rewrite run_bind, check_cooldown_run.
  destruct (on_cooldown user_id E h s); cbn beta iota; [done|].
  destruct args as [|link rest]; [done|].
  rewrite run_bind, app_nil_r. unfold chat_call at 1. cbn beta iota.
  destruct (chat E h _); cbn beta iota; [done|].
  rewrite run_bind. unfold emit at 1. cbn beta iota.
  rewrite <- app_assoc. cbn [app]. fold (try_entry h).
  pose proof (protected_block_state (tiktok_try user_id link) tiktok_except
                E (try_entry h) (after_gate user_id E h s)
                (λ e h0 s0, tiktok_except_state e E h0 s0)) as Hstate.
  now destruct (try_finally _ _ _ _ _) as [[r1 s1] ev1].
Qed.


(** X17. When the [try] body of a handler raises, whichever step raised,
    the state is as it was on entry: [track_command] is the last step of every
    path, so an unexpected error never leaves a record behind. *)
Theorem nothing_recorded_on_error user_id link E h s e s' ev :
  instagram_try user_id link E h s = (Raise e, s', ev) ∨
  tiktok_try user_id link E h s = (Raise e, s', ev) →
  s' = s.
Proof.
  intros [Hrun|Hrun].
  - exact (instagram_try_outcome _ _ _ _ _ _ _ _ Hrun).
  - exact (tiktok_try_outcome _ _ _ _ _ _ _ _ Hrun).
Qed.

(** X18. When the [try] body of [handle_instagram] ends normally, it has
    recorded a success exactly when the extraction result passed the test
    [data.get("success") and data.get("urls")], however many items were then
    delivered; otherwise (a failure result, or a success without URLs) it has
    recorded a failure after showing the error text of the result, or
    "Unknown", and has invoked the relay for nothing. *)
Theorem instagram_records_extraction_outcome user_id link E h s s' ev :
  instagram_try user_id link E h s = (Return tt, s', ev) →
  let data := extraction "insta" link ∅ E h in
  (succeeded "urls" data →
   s' = State (track_command user_id "instagram" true (stats s)) (user_data s)) ∧
  (¬ succeeded "urls" data →
   s' = State (track_command user_id "instagram" false (stats s)) (user_data s) ∧
   media_fetches ev = [] ∧
   ∃ err, py_get data "error" (JStr "Unknown") = Return err ∧
          EvChat (EditText (Fmt "Error: {error}" [err])) ∈ ev).
Proof.
  intros Hrun data. apply instagram_try_outcome in Hrun as [-> Hfailed]. fold data in Hfailed |- *.
  split.
  - intros Hok%succeeded_b_spec. now rewrite Hok.
  - intros Hno. assert (Hb : succeeded_b "urls" data = false).
    { destruct (succeeded_b "urls" data) eqn:Hb; [|done].
      now apply succeeded_b_spec in Hb. }
    rewrite Hb. split; [done|]. now apply Hfailed.
Qed.


(** X20. When the extraction result does not pass the test
    [data.get("success") and data.get("data")], [handle_tiktok]'s [try] body
    leaves the state as it was, however it ends: no [track_command] call is
    made.  If it ends normally, it has shown the error text of the result, or
    "Not found", and has invoked the relay for nothing. *)
Theorem tiktok_failed_extraction_unrecorded user_id link E h s r s' ev :
  ¬ succeeded "data" (extraction "tiktok" link ∅ E h) →
  tiktok_try user_id link E h s = (r, s', ev) →
  s' = s ∧
  (r = Return tt →
   media_fetches ev = [] ∧
   ∃ err, py_get (extraction "tiktok" link ∅ E h) "error" (JStr "Not found") = Return err ∧
          EvChat (EditText (Fmt "Error: {error}" [err])) ∈ ev).
Proof.
  intros Hno Hrun. apply tiktok_try_outcome in Hrun. cbn zeta in Hrun.
  assert (Hb : succeeded_b "data" (extraction "tiktok" link ∅ E h) = false).
  { destruct (succeeded_b "data" _) eqn:Hb; [|done]. now apply succeeded_b_spec in Hb. }
  rewrite Hb in Hrun. destruct r as [[]|e].
  - destruct Hrun as (-> & Hfetch & Herr). split; [done|]. done.
  - split; [done|discriminate].
Qed.

(** X21. One invocation of a handler changes the statistics by at most one
    [track_command] call, whatever happens in it, and changes the session
    only through the gate: the user's data afterwards are the ones the gate
    left. *)
Theorem at_most_one_record user_id args E h s :
  let gate := if on_cooldown user_id E h s then s else after_gate user_id E h s in
  let after1 := (handle_instagram user_id args E h s).1.2 in
  let after2 := (handle_tiktok user_id args E h s).1.2 in
  (stats after1 = stats s ∨ mutated_once (stats s) (stats after1)) ∧
  user_data after1 = user_data gate ∧
  (stats after2 = stats s ∨ mutated_once (stats s) (stats after2)) ∧
  user_data after2 = user_data gate.
Proof.
  cbn zeta. rewrite handle_instagram_state, handle_tiktok_state.
  destruct (on_cooldown user_id E h s); [auto|].
  pose proof (after_gate_stats user_id E h s) as Hgate.
  destruct args as [|link rest]; [auto|].
  destruct (chat E h _); [auto|].
  destruct (instagram_try user_id link E (try_entry h) (after_gate user_id E h s))
    as [[r1 s1] ev1] eqn:Hrun1.
  destruct (tiktok_try user_id link E (try_entry h) (after_gate user_id E h s))
    as [[r2 s2] ev2] eqn:Hrun2.
  apply instagram_try_outcome in Hrun1. apply tiktok_try_outcome in Hrun2.
  cbn zeta in Hrun1, Hrun2. cbn [fst snd].
  assert (H1 : (stats s1 = stats s ∨ mutated_once (stats s) (stats s1)) ∧
               user_data s1 = user_data (after_gate user_id E h s)).
  { destruct r1; [destruct Hrun1 as [-> _]|subst s1; auto].
    cbn [stats user_data]. rewrite Hgate. split; [right|done].
    apply track_command_mutates_once. }
  assert (H2 : (stats s2 = stats s ∨ mutated_once (stats s) (stats s2)) ∧
               user_data s2 = user_data (after_gate user_id E h s)).
  { destruct r2; [|subst s2; auto].
    destruct (succeeded_b "data" _).
    - destruct Hrun2 as (dl & title & h1 & b & ev' & _ & -> & _).
      cbn [stats user_data]. rewrite Hgate. split; [right|done].
      apply track_command_mutates_once.
    - destruct Hrun2 as (-> & _). auto. }
  tauto.
Qed.

(** ** /broadcast *)

Lemma count_cons {A} (P : A → bool) (c : A) (log : list A) :
  length (filter (λ c, P c = true) (c :: log)) =
  ((if P c then 1 else 0) + length (filter (λ c, P c = true) log))%nat.
Proof.
  destruct (P c) eqn:Hc.
  - now rewrite filter_cons_True.
  - rewrite filter_cons_False; [done|]. now rewrite Hc.
Qed.

Lemma recipients_cons rq ev : recipients (rq :: ev) = recipients [rq] ++ recipients ev.
Proof. apply (omap_app _ [rq] ev). Qed.

(** The loop visits every user once, in order, and counts what the replay
    of its calls shows. *)
Lemma broadcast_loop_spec T msg_text uids : ∀ h sent failed sent' failed' ev,
  broadcast_loop T msg_text uids h sent failed = (sent', failed', ev) →
  recipients ev = uids ∧
  (∀ rq, rq ∈ ev → rq = Sleep ∨ ∃ uid, rq = SendMessage uid (announcement msg_text)) ∧
  sent' = (sent + accepted_sends (replay T h ev))%nat ∧
  failed' = (failed + refused_sends (replay T h ev)
             + interrupted_pauses (replay T h ev))%nat.
Proof.
  unfold accepted_sends, refused_sends, interrupted_pauses.
  induction uids as [|uid rest IH]; intros h sent failed sent' failed' ev.
  - intros [= <- <- <-]. cbn. repeat split; try lia. intros rq Hin.
    now apply elem_of_nil in Hin.
  - cbn [broadcast_loop]. set (send := SendMessage uid (announcement msg_text)).
    destruct (T h send) as [e|] eqn:Hsend.
    + destruct (broadcast_loop T msg_text rest (h ++ [send]) sent (S failed))
        as [[s1 f1] ev1] eqn:Hrec.
      intros [= <- <- <-]. apply IH in Hrec as (Hrcp & Hshape & -> & ->).
      cbn [replay]. rewrite Hsend.
      rewrite !(count_cons (λ c, is_send c.1 && c.2)),
        !(count_cons (λ c, is_send c.1 && negb c.2)),
        !(count_cons (λ c, is_sleep c.1 && negb c.2)). cbn [fst snd is_send is_sleep andb negb].
      rewrite recipients_cons, Hrcp. repeat split; try (cbn; lia); try done.
      intros rq [->|Hin]%elem_of_cons; [right; by exists uid | by apply Hshape].
    + destruct (T (h ++ [send]) Sleep) as [e|] eqn:Hsleep.
      * destruct (broadcast_loop T msg_text rest (h ++ [send; Sleep]) (S sent) (S failed))
          as [[s1 f1] ev1] eqn:Hrec.
        intros [= <- <- <-]. apply IH in Hrec as (Hrcp & Hshape & -> & ->).
        cbn [replay]. rewrite Hsend, Hsleep, <- app_assoc. cbn [app].
        rewrite !(count_cons (λ c, is_send c.1 && c.2)),
          !(count_cons (λ c, is_send c.1 && negb c.2)),
          !(count_cons (λ c, is_sleep c.1 && negb c.2)). cbn [fst snd is_send is_sleep andb negb].
        rewrite recipients_cons, (recipients_cons Sleep), Hrcp.
        repeat split; try (cbn; lia); try done.
        intros rq [->|[->|Hin]%elem_of_cons]%elem_of_cons;
          [right; by exists uid | by left | by apply Hshape].
      * destruct (broadcast_loop T msg_text rest (h ++ [send; Sleep]) (S sent) failed)
          as [[s1 f1] ev1] eqn:Hrec.
        intros [= <- <- <-]. apply IH in Hrec as (Hrcp & Hshape & -> & ->).
        cbn [replay]. rewrite Hsend, Hsleep, <- app_assoc. cbn [app].
        rewrite !(count_cons (λ c, is_send c.1 && c.2)),
          !(count_cons (λ c, is_send c.1 && negb c.2)),
          !(count_cons (λ c, is_sleep c.1 && negb c.2)). cbn [fst snd is_send is_sleep andb negb].
        rewrite recipients_cons, (recipients_cons Sleep), Hrcp.
        repeat split; try (cbn; lia); try done.
        intros rq [->|[->|Hin]%elem_of_cons]%elem_of_cons;
          [right; by exists uid | by left | by apply Hshape].
Qed.

Lemma broadcast_run user_id args st T h :
  is_admin user_id = true →
  args ≠ [] →
  T h (ToCaller (ReplyText (Fmt "Sending..." []))) = None →
  ∃ r sent failed ev,
    broadcast user_id args st T h =
      (r, ToCaller (ReplyText (Fmt "Sending..." [])) :: ev ++ [done_message sent failed]) ∧
    broadcast_loop T (String.concat " " args) (elements (users st))
      (h ++ [ToCaller (ReplyText (Fmt "Sending..." []))]) 0 0 = (sent, failed, ev).
Proof.
  intros Hadmin Hargs Hstatus. unfold broadcast. rewrite Hadmin. cbn [negb].
  destruct args as [|a args]; [done|]. rewrite Hstatus.
  destruct (broadcast_loop _ _ _ _ _ _) as [[sent failed] ev]. eauto 10.
Qed.

Lemma broadcast_recipients user_id args st T h :
  is_admin user_id = true →
  args ≠ [] →
  T h (ToCaller (ReplyText (Fmt "Sending..." []))) = None →
  recipients (broadcast user_id args st T h).2 = elements (users st) ∧
  ∀ uid t, SendMessage uid t ∈ (broadcast user_id args st T h).2 →
           t = announcement (String.concat " " args).
Proof.
  intros Hadmin Hargs Hstatus.
  destruct (broadcast_run user_id args st T h Hadmin Hargs Hstatus)
    as (r & sent & failed & ev & -> & Hloop).
  apply broadcast_loop_spec in Hloop as (Hrcp & Hshape & _ & _). cbn [snd]. split.
  - rewrite recipients_cons. unfold recipients at 1 2. rewrite omap_app. fold (recipients ev).
    rewrite Hrcp. cbn. apply app_nil_r.
  - intros uid t [?|Hin]%elem_of_cons; [discriminate|].
    apply elem_of_app in Hin as [Hin|Hin].
    + apply Hshape in Hin as [?|(uid' & [= _ ->])]; [discriminate|done].
    + apply list_elem_of_singleton in Hin. discriminate.
Qed.

(** X22. A broadcast by an administrator with a message text, once the
    "Sending..." status is out, writes to every known user exactly once, with
    the announcement made of the arguments joined by spaces, whichever sends
    fail on the way: a failure for one user never stops the batch. *)
Theorem broadcast_reaches_every_user user_id args st T h :
  is_admin user_id = true →
  args ≠ [] →
  T h (ToCaller (ReplyText (Fmt "Sending..." []))) = None →
  let ev := (broadcast user_id args st T h).2 in
  recipients ev ≡ₚ elements (users st) ∧
  NoDup (recipients ev) ∧
  (∀ uid, uid ∈ recipients ev ↔ uid ∈ users st) ∧
  (∀ uid t, SendMessage uid t ∈ ev → t = announcement (String.concat " " args)).
Proof.
  intros Hadmin Hargs Hstatus. cbn zeta.
  destruct (broadcast_recipients user_id args st T h Hadmin Hargs Hstatus) as [-> Htext].
  split; [done|]. split; [apply NoDup_elements|]. split; [|exact Htext].
  intros uid. apply elem_of_elements.
Qed.

(** X23. The closing "Done!" message of such a broadcast carries the number
    of sends the transport accepted and, as failures, the number of sends it
    refused plus the number of pauses that were interrupted (an interrupted
    pause is counted as a failure of a message already counted as sent).
    When no pause is interrupted, the two numbers add up to the number of
    known users. *)
Theorem broadcast_summary user_id args st T h :
  is_admin user_id = true →
  args ≠ [] →
  T h (ToCaller (ReplyText (Fmt "Sending..." []))) = None →
  ∃ r sent failed ev,
    let status := ToCaller (ReplyText (Fmt "Sending..." [])) in
    let log := replay T (h ++ [status]) ev in
    broadcast user_id args st T h = (r, status :: ev ++ [done_message sent failed]) ∧
    sent = accepted_sends log ∧
    failed = (refused_sends log + interrupted_pauses log)%nat ∧
    (accepted_sends log + refused_sends log = size (users st))%nat ∧
    (interrupted_pauses log = 0%nat → (sent + failed = size (users st))%nat).
Proof.
  intros Hadmin Hargs Hstatus.
  destruct (broadcast_run user_id args st T h Hadmin Hargs Hstatus)
    as (r & sent & failed & ev & Hrun & Hloop).
  exists r, sent, failed, ev. cbn zeta. split; [exact Hrun|].
  pose proof Hloop as Hspec.
  apply broadcast_loop_spec in Hspec as (Hrcp & Hshape & Hsent & Hfailed).
  cbn [Nat.add] in Hsent, Hfailed.
  assert (Hcount : ∀ h0 ev0,
    (accepted_sends (replay T h0 ev0) + refused_sends (replay T h0 ev0)
     = length (recipients ev0))%nat).
  { intros h0 ev0. revert h0. unfold accepted_sends, refused_sends.
    induction ev0 as [|rq ev0 IH]; intros h0; [done|].
    cbn [replay]. rewrite (count_cons (λ c, is_send c.1 && c.2)),
      (count_cons (λ c, is_send c.1 && negb c.2)), recipients_cons, length_app.
    specialize (IH (h0 ++ [rq])). cbn [fst snd].
    destruct rq, (T h0 _); cbn; lia. }
  specialize (Hcount (h ++ [ToCaller (ReplyText (Fmt "Sending..." []))]) ev).
  rewrite Hrcp in Hcount. unfold size, set_size in *. cbn [compose] in *.
  repeat split; try done; lia.
Qed.

(** X24. [broadcast] writes to a user only when the caller is an
    administrator and gave a message text, and then only to known users:
    for anyone else, and without arguments, its single call is a reply to the
    caller. *)
Theorem broadcast_is_gated user_id args st T h uid :
  uid ∈ recipients (broadcast user_id args st T h).2 →
  is_admin user_id = true ∧ args ≠ [] ∧ uid ∈ users st.
Proof.
  destruct (is_admin user_id) eqn:Hadmin.
  2:{ unfold broadcast. rewrite Hadmin. cbn. intros Hin. now apply elem_of_nil in Hin. }
  destruct args as [|a args].
  { unfold broadcast. rewrite Hadmin. cbn. intros Hin. now apply elem_of_nil in Hin. }
  destruct (T h (ToCaller (ReplyText (Fmt "Sending..." [])))) as [e|] eqn:Hstatus.
  { unfold broadcast. rewrite Hadmin. cbn [negb]. rewrite Hstatus. cbn.
    intros Hin. now apply elem_of_nil in Hin. }
  intros Hin. split; [done|]. split; [done|].
  destruct (broadcast_recipients user_id (a :: args) st T h Hadmin) as [Hall _];
    [done|done|].
  rewrite Hall in Hin. now apply elem_of_elements.
Qed.

(** ** The kind of an Instagram item *)




End Bot.

(** * Examples on the scenarios *)

Import Scenario.

(** Values of [round(x, 1)] as CPython prints them: 5.75 is a tie and goes to
    the even 5.8, 0.25 goes to 0.2, and 2.675 (stored just below) to 2.7. *)
Example round1_values :
  Py.round1 5.75 = 5.8%float ∧ Py.round1 0.25 = 0.2%float ∧
  Py.round1 2.675 = 2.7%float ∧ Py.round1 (-0.04) = (-0.0)%float.
Proof. repeat split; vm_compute; reflexivity. Qed.

(** One success in three calls: the rate is the float [1 / 3 * 100]. *)
Example success_rate_one_third :
  success_rate (record_all [(42, "tiktok", true); (42, "tiktok", false);
                            (7, "instagram", false)] (initial_stats 0))
  = Return (33.33333333333333)%float.
Proof. vm_compute. reflexivity. Qed.

(** Witness of C8: user 1 is an administrator. *)
Lemma check_cooldown_admin_witness :
  is_admin admins 1 = true ∧
  check_cooldown cooldown admins 1 E_delivers [] recent =
    (Return (false, 0%float), recent, []).
Proof.
  assert (Hadmin : is_admin admins 1 = true) by (vm_compute; reflexivity).
  split; [exact Hadmin|].
  exact (check_cooldown_admin cooldown admins 1 E_delivers [] recent Hadmin).
Defined.


(** Witness of C2: a picture one byte above 10 MiB. *)
Lemma oversize_is_deferred_witness :
  fetched E_huge [] picture = Return huge_photo ∧
  oversize "photo" huge_photo ∧
  ∃ e,
    send_media_from_url picture "photo" (Fmt "Instagram Media {i}" [JInt 1]) "ig_1"
      E_huge [] start =
      (Return false, start,
       [EvHttp (media_request picture); EvLog "warning" "Send failed" e]) ∧
    exn_type e = "ValueError".
Proof.
  assert (Hfetch : fetched E_huge [] picture = Return huge_photo) by reflexivity.
  assert (Hover : oversize "photo" huge_photo).
  { right. split; [reflexivity|].
    unfold len, huge_photo. rewrite length_replicate, Z2Nat.id; lia. }
  split; [exact Hfetch|]. split; [exact Hover|].
  exact (oversize_is_deferred picture "photo" (Fmt "Instagram Media {i}" [JInt 1]) "ig_1"
           E_huge [] start huge_photo Hfetch Hover).
Defined.

(** Counterexample to C3 as stated: user 42, not an administrator and not on
    cooldown, sends /instagram without a link.  The usage error is the only
    outside call, but the gate has already stored the time of this attempt as
    the user's last command. *)
Lemma usage_error_moves_timestamp :
  let '(_, s', ev) := handle_instagram base cooldown admins 42 [] E_delivers [] start in
  ev = [EvChat (ReplyText (Fmt "Usage: <b>/instagram <link></b>" []))] ∧
  user_data start !! "last_cmd" = None ∧
  user_data s' !! "last_cmd" = Some 1000.25%float.
Proof. vm_compute. repeat split; reflexivity. Qed.

(** Witness of C3 (amended), on the same invocation. *)
Lemma usage_error_effects_witness :
  on_cooldown cooldown admins 42 E_delivers [] start = false ∧
  ∃ r1 r2,
    handle_instagram base cooldown admins 42 [] E_delivers [] start =
      (r1, after_gate admins 42 E_delivers [] start,
       [EvChat (ReplyText (Fmt "Usage: <b>/instagram <link></b>" []))]) ∧
    handle_tiktok base cooldown admins 42 [] E_delivers [] start =
      (r2, after_gate admins 42 E_delivers [] start,
       [EvChat (ReplyText (Fmt "Usage: <b>/tiktok <link></b>" []))]) ∧
    stats (after_gate admins 42 E_delivers [] start) = stats start ∧
    (is_admin admins 42 = true → after_gate admins 42 E_delivers [] start = start) ∧
    (is_admin admins 42 = false →
     user_data (after_gate admins 42 E_delivers [] start) !! "last_cmd"
     = Some (clock E_delivers [])).
Proof.
  assert (Hfree : on_cooldown cooldown admins 42 E_delivers [] start = false)
    by (vm_compute; reflexivity).
  split; [exact Hfree|].
  exact (usage_error_effects base cooldown admins 42 E_delivers [] start Hfree).
Defined.

(** Counterexample to C4 as stated: user 42 passes the gate with a link, the
    clip is delivered, and then the chat transport refuses to delete the
    status message.  The handler reports "Unexpected error." and comes back
    with [stats] as they were. *)
Lemma delete_failure_is_not_recorded :
  let '(r, s', ev) :=
    handle_instagram base cooldown admins 42 [link] E_delete_fails [] start in
  on_cooldown cooldown admins 42 E_delete_fails [] start = false ∧
  r = Return tt ∧
  media_fetches ev = [clip] ∧
  stats s' = stats start ∧
  total_requests (stats s') = 0.
Proof. vm_compute. repeat split; reflexivity. Qed.

(** Witness of C4 (amended): the run of [E_delivers] records one success. *)
Lemma stats_recorded_once_witness :
  on_cooldown cooldown admins 42 E_delivers [] start = false ∧
  mutated_once (stats start)
    (stats (handle_instagram base cooldown admins 42 [link] E_delivers [] start).1.2).
Proof.
  assert (Hfree : on_cooldown cooldown admins 42 E_delivers [] start = false)
    by (vm_compute; reflexivity).
  split; [exact Hfree|].
  set (run := handle_instagram base cooldown admins 42 [link] E_delivers [] start).
  refine (proj1 (stats_recorded_once base cooldown admins 42 link [] E_delivers [] start
                   run.1.2 run.2 Hfree) _ _).
  - vm_compute. reflexivity.
  - vm_compute. intros Hin.
    repeat (apply elem_of_cons in Hin as [Hin|Hin]; [discriminate|]).
    now apply elem_of_nil in Hin.
Defined.

(** What C4 (amended) leaves out: when the extraction fails, [handle_tiktok]
    reports the error and makes no [track_command] call, where
    [handle_instagram] records a failure. *)
Example failed_extraction_in_both_handlers :
  total_requests
    (stats (handle_tiktok base cooldown admins 42 [link] E_not_found [] start).1.2) = 0 ∧
  failed_requests
    (stats (handle_instagram base cooldown admins 42 [link] E_not_found [] start).1.2) = 1.
Proof. vm_compute. split; reflexivity. Qed.

(** Counterexample to C6 as stated: the API answers with status 300, which
    is not a 2xx status, and a body that decodes; [call_api] returns the body,
    whose success flag is true. *)
Lemma call_api_accepts_status_300 :
  http E_multiple_choices [] (api_request base "insta" link ∅)
    = answer 300 (payload [clip]) ∧
  ¬ (200 ≤ 300 < 300) ∧
  (call_api base "insta" link ∅ E_multiple_choices [] start).1.1 = Return (payload [clip]) ∧
  py_get (payload [clip]) "success" JNull = Return (JBool true).
Proof. repeat split; try reflexivity. lia. Qed.

(** Witness of C6 (amended): the API cannot be reached. *)
Lemma call_api_failure_witness :
  http_failure E_unreachable [] (api_request base "insta" link ∅) unreachable ∧
  call_api base "insta" link ∅ E_unreachable [] start =
    (Return (failure unreachable), start,
     [EvHttp (api_request base "insta" link ∅);
      EvLog "error" ("API Error (" +:+ "insta" +:+ ")") unreachable]).
Proof.
  assert (Hfail : http_failure E_unreachable [] (api_request base "insta" link ∅) unreachable)
    by (apply transport_error; reflexivity).
  split; [exact Hfail|].
  exact (call_api_failure base "insta" link ∅ E_unreachable [] start unreachable Hfail).
Defined.

(** Counterexample to C7 as stated: the extraction succeeds with one URL,
    the status edit of the first item is refused, and the handler ends with
    "Unexpected error." without having invoked the relay at all. *)
Lemma edit_failure_skips_relay :
  let '(r, _, ev) :=
    handle_instagram base cooldown admins 42 [link] E_edit_fails [] start in
  extraction base "insta" link ∅ E_edit_fails (try_entry []) = payload [clip] ∧
  r = Return tt ∧
  media_fetches ev = [] ∧
  length (media_fetches ev) ≠ length [clip].
Proof. vm_compute. repeat split; (reflexivity || discriminate). Qed.

(** Witness of C7 (amended): of the two items of [E_delivers] the clip is
    delivered and the picture is deferred. *)
Lemma instagram_relay_report_witness :
  succeeded "urls" (extraction base "insta" link ∅ E_delivers []) ∧
  py_getitem (extraction base "insta" link ∅ E_delivers []) "urls"
    = Return (JList [clip; picture]) ∧
  ∃ sent uploaded fallback h1 ev1,
    relay_run E_delivers start 2 h1 1 [clip; picture] sent ev1 ∧
    media_fetches (instagram_try base 42 link E_delivers [] start).2 = [clip; picture] ∧
    length sent = 2%nat ∧
    uploaded = delivered sent ∧
    fallback = undelivered [clip; picture] sent ∧
    (uploaded + length fallback = 2)%nat ∧
    (fallback ≠ [] →
     EvChat (report uploaded fallback) ∈ (instagram_try base 42 link E_delivers [] start).2).
Proof.
  assert (Hok : succeeded "urls" (extraction base "insta" link ∅ E_delivers []))
    by (exists (JBool true), (JList [clip; picture]); repeat split; reflexivity).
  assert (Hurls : py_getitem (extraction base "insta" link ∅ E_delivers []) "urls"
                  = Return (JList [clip; picture])) by reflexivity.
  split; [exact Hok|]. split; [exact Hurls|].
  set (run := instagram_try base 42 link E_delivers [] start).
  refine (instagram_relay_report base 42 link E_delivers [] start run.1.2 run.2
            [clip; picture] Hok Hurls _).
  vm_compute. reflexivity.
Defined.

(** Witness of C9: the run of [E_delivers] starts the task and cancels it. *)
Lemma progress_task_cancelled_witness :
  EvTaskCreate ∈ (handle_instagram base cooldown admins 42 [link] E_delivers [] start).2 ∧
  last (handle_instagram base cooldown admins 42 [link] E_delivers [] start).2
    = Some EvTaskCancel ∧
  (∀ before e after, loading_animation (before ++ Thrown e :: after) = Finished) ∧
  (∀ schedule e, loading_animation schedule ≠ Failed e).
Proof.
  set (run := handle_instagram base cooldown admins 42 [link] E_delivers [] start).
  assert (Hstart : EvTaskCreate ∈ run.2)
    by (vm_compute; apply list_elem_of_further, list_elem_of_here).
  split; [exact Hstart|].
  refine (progress_task_cancelled base cooldown admins 42 [link] E_delivers [] start
            run.1.1 run.1.2 run.2 (or_introl _) Hstart).
  subst run. now destruct (handle_instagram _ _ _ _ _ _ _ _) as [[r s'] ev].
Defined.

(** Witness of X1: user 42's first command at 1000.25, the next at 1003. *)
Lemma cooldown_window_restarts_witness :
  is_admin admins 42 = false ∧
  on_cooldown cooldown admins 42 E_delivers [] start = false ∧
  Py.float_lt_int (clock E_later [] - clock E_delivers [])%float cooldown = true ∧
  ∃ s1,
    check_cooldown cooldown admins 42 E_delivers [] start = (Return (false, 0%float), s1, []) ∧
    check_cooldown cooldown admins 42 E_later [] s1 =
      (Return (true, Py.round1 (Py.int_to_float cooldown
                                - (clock E_later [] - clock E_delivers []))%float), s1, []).
Proof.
  assert (Hadmin : is_admin admins 42 = false) by (vm_compute; reflexivity).
  assert (Hfree : on_cooldown cooldown admins 42 E_delivers [] start = false)
    by (vm_compute; reflexivity).
  assert (Hsoon : Py.float_lt_int (clock E_later [] - clock E_delivers [])%float cooldown = true)
    by (vm_compute; reflexivity).
  split; [exact Hadmin|]. split; [exact Hfree|]. split; [exact Hsoon|].
  exact (cooldown_window_restarts cooldown admins 42 E_delivers [] start E_later []
           Hadmin Hfree Hsoon).
Defined.


(** Witness of X6: the initial record, as a user without commands sees it. *)
Lemma about_reports_uptime_witness :
  0 ≤ successful_requests (stats start) ≤ total_requests (stats start) ∧
  ∃ r t d hh m rate,
    about E_delivers [] start = (r, start, [EvChat (ReplyHtml t)]) ∧
    values t = [JInt d; JInt hh; JInt m; JInt (Z.of_nat (size (users (stats start))));
                JInt (total_requests (stats start)); JFloat rate] ∧
    success_rate (stats start) = Return rate ∧
    0 ≤ hh < 24 ∧ 0 ≤ m < 60 ∧
    let seconds := (datetime_now E_delivers [] - start_time (stats start)) / 1000000 in
    d * 86400 + hh * 3600 + m * 60 ≤ seconds < d * 86400 + hh * 3600 + m * 60 + 60.
Proof.
  assert (Hrange : 0 ≤ successful_requests (stats start) ≤ total_requests (stats start))
    by (cbn; lia).
  split; [exact Hrange|].
  exact (about_reports_uptime E_delivers [] start Hrange).
Defined.

(** Witness of X9: the API answers 200 with the two URLs. *)
Lemma call_api_success_witness :
  http E_delivers [] (api_request base "insta" link ∅)
    = Return (Response 200 (Return []) (Return (payload [clip; picture]))) ∧
  ¬ (400 ≤ 200 < 600) ∧
  call_api base "insta" link ∅ E_delivers [] start =
    (Return (payload [clip; picture]), start, [EvHttp (api_request base "insta" link ∅)]).
Proof.
  assert (Hget : http E_delivers [] (api_request base "insta" link ∅)
                 = Return (Response 200 (Return []) (Return (payload [clip; picture]))))
    by reflexivity.
  assert (Hstatus : ¬ (400 ≤ 200 < 600)) by lia.
  split; [exact Hget|]. split; [exact Hstatus|].
  exact (call_api_success base "insta" link ∅ E_delivers [] start _ _ Hget Hstatus eq_refl).
Defined.

(** Witness of X11: the server of the picture resets the connection. *)
Lemma fetch_failure_is_deferred_witness :
  fetched E_delivers [] picture = Raise (Exn "ConnectionError" "Connection reset") ∧
  send_media_from_url picture "photo" (Fmt "Instagram Media {i}" [JInt 2]) "ig_2"
    E_delivers [] start =
    (Return false, start,
     [EvHttp (media_request picture);
      send_failed (Exn "ConnectionError" "Connection reset")]).
Proof.
  assert (Hfetch : fetched E_delivers [] picture
                   = Raise (Exn "ConnectionError" "Connection reset")) by reflexivity.
  split; [exact Hfetch|].
  exact (fetch_failure_is_deferred picture "photo" (Fmt "Instagram Media {i}" [JInt 2]) "ig_2"
           E_delivers [] start _ Hfetch).
Defined.

(** Witness of X12: the clip, one byte long, is sent as [ig_1.mp4]. *)
Lemma delivery_follows_transport_witness :
  fetched E_delivers [] clip = Return [Byte.x50] ∧
  ¬ oversize "video" [Byte.x50] ∧
  send_media_from_url clip "video" (Fmt "Instagram Media {i}" [JInt 1]) "ig_1"
    E_delivers [] start =
  let fetch := EvHttp (media_request clip) in
  match media_reply "video" [Byte.x50] (Fmt "Instagram Media {i}" [JInt 1])
          ("ig_1" +:+ extension "video") with
  | Some rq =>
      match chat E_delivers ([] ++ [fetch]) rq with
      | None => (Return true, start, [fetch; EvChat rq])
      | Some e => (Return false, start, [fetch; EvChat rq; send_failed e])
      end
  | None => (Return true, start, [fetch])
  end.
Proof.
  assert (Hfetch : fetched E_delivers [] clip = Return [Byte.x50]) by reflexivity.
  assert (Hfits : ¬ oversize "video" [Byte.x50]).
  { intros [[_ Hlen]|[Hkind _]]; [unfold len in Hlen; cbn [length] in Hlen; lia | discriminate]. }
  split; [exact Hfetch|]. split; [exact Hfits|].
  exact (delivery_follows_transport clip "video" (Fmt "Instagram Media {i}" [JInt 1]) "ig_1"
           E_delivers [] start _ Hfetch Hfits).
Defined.

(** Witness of X14: the first status edit is refused. *)
Lemma relay_loop_interrupted_witness :
  relay_loop 1 1 [clip] 0 [] E_edit_fails [] start =
    (Raise (Exn "RetryAfter" "Flood control exceeded"), start,
     [EvChat (downloading 1 1)]) ∧
  start = start ∧
  ∃ k, (k < length [clip])%nat ∧ media_fetches [EvChat (downloading 1 1)] = take k [clip].
Proof.
  assert (Hloop : relay_loop (length [clip]) 1 [clip] 0 [] E_edit_fails [] start =
            (Raise (Exn "RetryAfter" "Flood control exceeded"), start,
             [EvChat (downloading 1 1)])) by (vm_compute; reflexivity).
  split; [exact Hloop|].
  exact (relay_loop_interrupted [clip] E_edit_fails [] start _ _ _ Hloop).
Defined.

(** Witness of X15: the clip is delivered, the picture deferred. *)
Lemma deferred_links_keep_order_witness :
  relay_loop 2 1 [clip; picture] 0 [] E_delivers [] start =
    (Return (1%nat, [picture]), start,
     (relay_loop 2 1 [clip; picture] 0 [] E_delivers [] start).2) ∧
  sublist [picture] [clip; picture] ∧
  (1 ≤ length [clip; picture])%nat ∧
  (1%nat = length [clip; picture] ↔ [picture] = []).
Proof.
  assert (Hloop : relay_loop (length [clip; picture]) 1 [clip; picture] 0 [] E_delivers [] start =
            (Return (1%nat, [picture]), start,
             (relay_loop 2 1 [clip; picture] 0 [] E_delivers [] start).2))
    by (vm_compute; reflexivity).
  split; [exact Hloop|].
  exact (deferred_links_keep_order [clip; picture] E_delivers [] start _ _ _ _ Hloop).
Defined.


(** Witness of X17: the refused delete of [E_delete_fails]. *)
Lemma nothing_recorded_on_error_witness :
  instagram_try base 42 link E_delete_fails [] start =
    (Raise (Exn "BadRequest" "Message to delete not found"), start,
     (instagram_try base 42 link E_delete_fails [] start).2) ∧
  start = start.
Proof.
  assert (Hrun : instagram_try base 42 link E_delete_fails [] start =
            (Raise (Exn "BadRequest" "Message to delete not found"), start,
             (instagram_try base 42 link E_delete_fails [] start).2))
    by (vm_compute; reflexivity).
  split; [exact Hrun|].
  exact (nothing_recorded_on_error base 42 link E_delete_fails [] start _ _ _
           (or_introl Hrun)).
Defined.

(** Witness of X18: the run of [E_delivers] is recorded as a success although
    the picture was deferred. *)
Lemma instagram_records_extraction_outcome_witness :
  succeeded "urls" (extraction base "insta" link ∅ E_delivers []) ∧
  (instagram_try base 42 link E_delivers [] start).1.2 =
    State (track_command 42 "instagram" true (stats start)) (user_data start).
Proof.
  assert (Hok : succeeded "urls" (extraction base "insta" link ∅ E_delivers []))
    by (exists (JBool true), (JList [clip; picture]); repeat split; reflexivity).
  split; [exact Hok|].
  set (run := instagram_try base 42 link E_delivers [] start).
  refine (proj1 (instagram_records_extraction_outcome base 42 link E_delivers [] start
                   run.1.2 run.2 _) Hok).
  vm_compute. reflexivity.
Defined.


(** Witness of X20: the API of [E_not_found] reports a failure. *)
Lemma tiktok_failed_extraction_unrecorded_witness :
  ¬ succeeded "data" (extraction base "tiktok" link ∅ E_not_found []) ∧
  (tiktok_try base 42 link E_not_found [] start).1.2 = start ∧
  ((tiktok_try base 42 link E_not_found [] start).1.1 = Return tt →
   media_fetches (tiktok_try base 42 link E_not_found [] start).2 = [] ∧
   ∃ err,
     py_get (extraction base "tiktok" link ∅ E_not_found []) "error" (JStr "Not found")
       = Return err ∧
     EvChat (EditText (Fmt "Error: {error}" [err]))
       ∈ (tiktok_try base 42 link E_not_found [] start).2).
Proof.
  assert (Hno : ¬ succeeded "data" (extraction base "tiktok" link ∅ E_not_found [])).
  { intros (ok & v & Hget & Hok & _). injection Hget as <-. discriminate. }
  split; [exact Hno|].
  set (run := tiktok_try base 42 link E_not_found [] start).
  refine (tiktok_failed_extraction_unrecorded base 42 link E_not_found [] start
            run.1.1 run.1.2 run.2 Hno _).
  subst run. now destruct (tiktok_try _ _ _ _ _ _) as [[r s'] ev].
Defined.

(** Witness of X22: administrator 1 announces "hello all" to three users. *)
Lemma broadcast_reaches_every_user_witness :
  is_admin admins 1 = true ∧
  ["hello"; "all"] ≠ [] ∧
  blocked_by_8 [] (ToCaller (ReplyText (Fmt "Sending..." []))) = None ∧
  let ev := (broadcast admins 1 ["hello"; "all"] three_users blocked_by_8 []).2 in
  recipients ev ≡ₚ elements (users three_users) ∧
  NoDup (recipients ev) ∧
  (∀ uid, uid ∈ recipients ev ↔ uid ∈ users three_users) ∧
  (∀ uid t, SendMessage uid t ∈ ev → t = announcement (String.concat " " ["hello"; "all"])).
Proof.
  assert (Hadmin : is_admin admins 1 = true) by (vm_compute; reflexivity).
  assert (Hargs : ["hello"; "all"] ≠ []) by discriminate.
  assert (Hstatus : blocked_by_8 [] (ToCaller (ReplyText (Fmt "Sending..." []))) = None)
    by reflexivity.
  split; [exact Hadmin|]. split; [exact Hargs|]. split; [exact Hstatus|].
  exact (broadcast_reaches_every_user admins 1 ["hello"; "all"] three_users blocked_by_8 []
           Hadmin Hargs Hstatus).
Defined.

(** Witness of X23, on the same broadcast. *)
Lemma broadcast_summary_witness :
  is_admin admins 1 = true ∧
  ["hello"; "all"] ≠ [] ∧
  blocked_by_8 [] (ToCaller (ReplyText (Fmt "Sending..." []))) = None ∧
  ∃ r sent failed ev,
    let status := ToCaller (ReplyText (Fmt "Sending..." [])) in
    let log := replay blocked_by_8 ([] ++ [status]) ev in
    broadcast admins 1 ["hello"; "all"] three_users blocked_by_8 []
      = (r, status :: ev ++ [done_message sent failed]) ∧
    sent = accepted_sends log ∧
    failed = (refused_sends log + interrupted_pauses log)%nat ∧
    (accepted_sends log + refused_sends log = size (users three_users))%nat ∧
    (interrupted_pauses log = 0%nat → (sent + failed = size (users three_users))%nat).
Proof.
  assert (Hadmin : is_admin admins 1 = true) by (vm_compute; reflexivity).
  assert (Hargs : ["hello"; "all"] ≠ []) by discriminate.
  assert (Hstatus : blocked_by_8 [] (ToCaller (ReplyText (Fmt "Sending..." []))) = None)
    by reflexivity.
  split; [exact Hadmin|]. split; [exact Hargs|]. split; [exact Hstatus|].
  exact (broadcast_summary admins 1 ["hello"; "all"] three_users blocked_by_8 []
           Hadmin Hargs Hstatus).
Defined.

(** The summary of that broadcast: two sent, one failed. *)
Example broadcast_to_three_users :
  ∃ ev, broadcast admins 1 ["hello"; "all"] three_users blocked_by_8 []
        = (Return tt, ev) ∧ last ev = Some (done_message 2 1).
Proof. eexists. split; vm_compute; reflexivity. Qed.

(** Witness of X24: user 7 is written to in that broadcast. *)
Lemma broadcast_is_gated_witness :
  7 ∈ recipients (broadcast admins 1 ["hello"; "all"] three_users blocked_by_8 []).2 ∧
  is_admin admins 1 = true ∧ ["hello"; "all"] ≠ [] ∧ 7 ∈ users three_users.
Proof.
  assert (Hin : 7 ∈ recipients (broadcast admins 1 ["hello"; "all"] three_users
                                  blocked_by_8 []).2)
    by (vm_compute; apply list_elem_of_here).
  split; [exact Hin|].
  exact (broadcast_is_gated admins 1 ["hello"; "all"] three_users blocked_by_8 [] 7 Hin).
Defined.

